(** * gcloud/utils/cmdb.py: concurrent paginated CMDB requests

    A shallow embedding of [batch_request], [get_business_host_topo],
    [get_business_host] and [get_notify_receivers], and the properties
    their specification states about them.

    Python values are an inductive type, dictionaries with string keys are
    finite maps, and the effects of the module (remote calls, log lines,
    exceptions, the one loop that may spin forever) live in a small
    state-and-outcome monad. *)

From Stdlib Require Import ZArith String Ascii Lia OrderedTypeEx.
From stdpp Require Import gmap strings list fin_maps sorting.

Set Warnings "-register-all".
Open Scope string_scope.
Open Scope Z_scope.
Open Scope list_scope.

(** ** Python values *)

(** The values the module handles. Floats do not occur in the module and
    are left out; dictionaries carry string keys only (keyword arguments
    and JSON objects), and their iteration order is that of the finite
    map, not the insertion order. *)
Inductive pyval : Type :=
| PNone
| PBool (b : bool)
| PInt (z : Z)
| PStr (s : string)
| PList (l : list pyval)
| PDict (d : gmap string pyval).

Inductive exn : Type :=
| TypeError
| KeyError
| IndexError
| AttributeError
| ValueError
| OtherError (what : string).

(** What running a piece of Python gives: a value, a raised exception,
    or no answer at all. *)
Inductive outcome (A : Type) : Type :=
| Ok (a : A)
| Raise (e : exn)
| Diverge.
Arguments Ok {A} a.
Arguments Raise {A} e.
Arguments Diverge {A}.

Definition obind {A C} (o : outcome A) (k : A → outcome C) : outcome C :=
  match o with
  | Ok a => k a
  | Raise e => Raise e
  | Diverge => Diverge
  end.

Fixpoint omapM {A C} (f : A → outcome C) (l : list A) : outcome (list C) :=
  match l with
  | [] => Ok []
  | x :: rest =>
      obind (f x) (λ y, obind (omapM f rest) (λ ys, Ok (y :: ys)))
  end.

(** [bool(x)] *)
Definition truthy (v : pyval) : bool :=
  match v with
  | PNone => false
  | PBool b => b
  | PInt z => negb (z =? 0)
  | PStr s => negb (String.eqb s "")
  | PList l => match l with [] => false | _ => true end
  | PDict d => match map_to_list d with [] => false | _ => true end
  end.

(** [x or y] *)
Definition py_or (x y : pyval) : pyval := if truthy x then x else y.

(** [x[k]] for a string key [k] *)
Definition subscript (v : pyval) (k : string) : outcome pyval :=
  match v with
  | PDict d => match d !! k with Some x => Ok x | None => Raise KeyError end
  | _ => Raise TypeError
  end.

(** [x[i]] for an integer index [i] *)
Definition subscript_int (v : pyval) (i : Z) : outcome pyval :=
  match v with
  | PList l =>
      let n := Z.of_nat (length l) in
      let j := if i <? 0 then i + n else i in
      if (0 <=? j) && (j <? n)
      then match l !! Z.to_nat j with Some x => Ok x | None => Raise IndexError end
      else Raise IndexError
  | PStr s =>
      let n := Z.of_nat (String.length s) in
      let j := if i <? 0 then i + n else i in
      if (0 <=? j) && (j <? n)
      then match String.get (Z.to_nat j) s with
           | Some c => Ok (PStr (String c ""))
           | None => Raise IndexError
           end
      else Raise IndexError
  | PDict _ => Raise KeyError
  | _ => Raise TypeError
  end.

(** The elements a [for] loop or [list.extend] draws from a value. *)
Definition py_iter (v : pyval) : outcome (list pyval) :=
  match v with
  | PList l => Ok l
  | PStr s => Ok ((λ c, PStr (String c "")) <$> list_ascii_of_string s)
  | PDict d => Ok ((λ kv, PStr kv.1) <$> map_to_list d)
  | _ => Raise TypeError
  end.

(** The integer an [int < x] comparison reads from [x]. *)
Definition as_int (v : pyval) : outcome Z :=
  match v with
  | PInt z => Ok z
  | PBool b => Ok (if b then 1 else 0)
  | _ => Raise TypeError
  end.

(** [x != n] for an integer [n] *)
Definition py_ne_int (v : pyval) (n : Z) : bool :=
  match v with
  | PInt z => negb (z =? n)
  | PBool b => negb ((if b then 1 else 0) =? n)
  | _ => true
  end.

(** ** Strings *)

Definition is_space (c : ascii) : bool :=
  let n := nat_of_ascii c in
  (Nat.leb 9 n && Nat.leb n 13) || (Nat.leb 28 n && Nat.leb n 32).

Fixpoint lstrip (s : string) : string :=
  match s with
  | EmptyString => EmptyString
  | String c rest => if is_space c then lstrip rest else s
  end.

Fixpoint rstrip (s : string) : string :=
  match s with
  | EmptyString => EmptyString
  | String c rest =>
      match rstrip rest with
      | EmptyString => if is_space c then EmptyString else String c EmptyString
      | r => String c r
      end
  end.

(** [s.strip()] *)
Definition strip (s : string) : string := rstrip (lstrip s).

(** [s.split(sep)] for a one-character separator *)
Fixpoint split (sep : ascii) (s : string) : list string :=
  match s with
  | EmptyString => [EmptyString]
  | String c rest =>
      if Ascii.eqb c sep then EmptyString :: split sep rest
      else match split sep rest with
           | [] => [String c EmptyString]
           | h :: t => String c h :: t
           end
  end.

(** [sep.join(l)] *)
Fixpoint join (sep : string) (l : list string) : string :=
  match l with
  | [] => EmptyString
  | [x] => x
  | x :: rest => String.append x (String.append sep (join sep rest))
  end.

Definition str_le (x y : string) : Prop := Is_true (String.leb x y).
Definition str_lt (x y : string) : Prop := Is_true (String.ltb x y).

(** [sorted(set(l))] on strings *)
Definition sorted_set (l : list string) : list string :=
  merge_sort str_le (remove_dups l).

(** ** Effects: remote calls, log lines, exceptions *)

Inductive logger_id : Type :=
| LoggerRoot
| LoggerCelery
| LoggerHandle (h : nat).

(** The two [logger.error] lines of [batch_request] keep the values they
    format; the lines of [get_notify_receivers] carry their message. *)
Inductive log_entry : Type :=
| CountRequestError (api : string) (result : pyval)
| RequestError (api : string) (params : gmap string pyval) (result : pyval)
| Message (msg : string).

(** One invocation of a remote API, as the backend sees it. *)
Record call : Type := Call {
  callee : string;
  args : list pyval;
  kwds : gmap string pyval
}.

Section Effects.
Context {B : Type}.

(** A component of the ESB client ([client.cc.list_biz_hosts], ...): a
    callable with the attributes [path] and [__name__] that
    [batch_request] reads, acting on a backend of state [B]. *)
Record adapter : Type := Adapter {
  path : string;
  name : string;
  run : B → list pyval → gmap string pyval → outcome pyval * B
}.

Record world : Type := World {
  backend : B;
  calls : list call;
  log : list (logger_id * log_entry)
}.

Definition M (A : Type) : Type := world → outcome A * world.

Definition ret {A} (a : A) : M A := λ w, (Ok a, w).

Definition bind {A C} (m : M A) (k : A → M C) : M C :=
  λ w, match m w with
       | (Ok a, w') => k a w'
       | (Raise e, w') => (Raise e, w')
       | (Diverge, w') => (Diverge, w')
       end.

Definition lift {A} (o : outcome A) : M A := λ w, (o, w).

Definition raise {A} (e : exn) : M A := lift (Raise e).

(** [logger.error(...)] *)
Definition log_error (lg : logger_id) (e : log_entry) : M unit :=
  λ w, (Ok tt, World (backend w) (calls w) (log w ++ [(lg, e)])).

(** Calling [func] with positional arguments [a] and keywords [k]. *)
Definition invoke (func : adapter) (a : list pyval) (k : gmap string pyval)
  : M pyval :=
  λ w, let '(r, b) := run func (backend w) a k in
       (r, World b (calls w ++ [Call (name func) a k]) (log w)).

(** [func(page=page, **params)]: a keyword given twice is a [TypeError]
    raised before [func] is entered. *)
Definition call_with_page (func : adapter) (page : pyval)
    (params : gmap string pyval) : M pyval :=
  match params !! "page" with
  | Some _ => raise TypeError
  | None => invoke func [] (<["page" := page]> params)
  end.
End Effects.

Arguments adapter B : clear implicits.
Arguments world B : clear implicits.
Arguments M B A : clear implicits.

Notation "x <- m ;; k" := (bind m (λ x, k))
  (at level 100, m at next level, right associativity, only parsing).

(** ** The page plan *)

Definition page (start limit : Z) : pyval :=
  PDict {[ "limit" := PInt limit; "start" := PInt start ]}.

(** The [while start < count] loop of [batch_request], as the list of
    the values [start] takes. [None]: the fuel ran out with
    [start < count] still true. *)
Fixpoint page_starts (fuel : nat) (start count limit : Z) : option (list Z) :=
  if start <? count then
    match fuel with
    | O => None
    | S fuel' => cons start <$> page_starts fuel' (start + limit) count limit
    end
  else Some [].

(** How many times the body of that loop runs from [start], for a
    positive [limit]. *)
Definition rounds (count limit start : Z) : nat :=
  Z.to_nat ((count - start + limit - 1) / limit).

(** [request_params = {"page": {...}}; request_params.update(params)] *)
Definition request_params (limit : Z) (params : gmap string pyval) (start : Z)
  : gmap string pyval :=
  params ∪ {[ "page" := page start limit ]}.

(** ** The worker pool *)

Section Pool.
Context {B : Type}.

(** Modelled from the spec: [ThreadPool] of gcloud/utils/thread.py is
    not part of the sources at hand. The spec gives the pool one
    invocation of the adapter per submitted window and has the caller
    read the results only when all of them are resolved. Here the
    invocations are atomic and happen in the order [sched] names the
    tasks (numbered by submission); a task [sched] leaves out runs
    after those it names, so that every task is run before the pool
    is joined. A future holds what its invocation gave, a raised
    exception included. *)
Definition run_order (sched : list nat) (n : nat) : list nat :=
  let named := remove_dups (filter (λ i, (i < n)%nat) sched) in
  named ++ filter (λ i, i ∉ named) (seq 0 n).

Fixpoint run_tasks (func : adapter B) (order : list nat)
    (tasks : list (gmap string pyval))
    (futures : list (option (outcome pyval))) (w : world B)
  : list (option (outcome pyval)) * world B :=
  match order with
  | [] => (futures, w)
  | i :: rest =>
      match tasks !! i with
      | None => run_tasks func rest tasks futures w
      | Some kw =>
          let '(r, w') := invoke func [] kw w in
          run_tasks func rest tasks (<[i := Some r]> futures) w'
      end
  end.

(** The invocations of all [tasks], in the order [sched] gives. *)
Definition pool_run (sched : list nat) (func : adapter B)
    (tasks : list (gmap string pyval)) (w : world B)
  : list (option (outcome pyval)) * world B :=
  run_tasks func (run_order sched (length tasks)) tasks
    (replicate (length tasks) None) w.

(** The task behind [future] has returned or raised. *)
Definition settled (future : option (outcome pyval)) : bool :=
  match future with
  | Some (Ok _) | Some (Raise _) => true
  | _ => false
  end.

(** [pool.apply_async(func, kwds=kw)] for every [kw] of [tasks], then
    [pool.close(); pool.join()]: joining returns once every task has
    returned or raised, and does not return if one of them never
    does. *)
Definition pool_join (sched : list nat) (func : adapter B)
    (tasks : list (gmap string pyval))
  : M B (list (option (outcome pyval))) :=
  λ w, let '(futures, w') := pool_run sched func tasks w in
       if forallb settled futures then (Ok futures, w') else (Diverge, w').

(** [future.get()]: the value, or the exception the task raised; a
    future never resolved keeps its reader waiting. *)
Definition future_get (f : option (outcome pyval)) : M B pyval :=
  match f with
  | Some r => lift r
  | None => lift Diverge
  end.

(** The [i]-th future holds an outcome. *)
Definition resolved (futures : list (option (outcome pyval))) (i : nat)
  : Prop :=
  ∃ r, futures !! i = Some (Some r).
End Pool.

(** ** batch_request *)

Section BatchRequest.
Context {B : Type}.

(** The default extractors, [lambda x: x["data"]["info"]] and
    [lambda x: x["data"]["count"]]. *)
Definition default_get_data (x : pyval) : outcome pyval :=
  obind (subscript x "data") (λ d, subscript d "info").

Definition default_get_count (x : pyval) : outcome pyval :=
  obind (subscript x "data") (λ d, subscript d "count").

(** The loop over [params_and_future_list]. *)
Fixpoint merge (func : adapter B) (get_data : pyval → outcome pyval)
    (params_and_future_list :
       list (gmap string pyval * option (outcome pyval)))
    (data : list pyval) : M B (list pyval) :=
  match params_and_future_list with
  | [] => ret data
  | (params, future) :: rest =>
      result <- future_get future ;;
      if negb (truthy result) then
        _ <- log_error LoggerRoot (RequestError (name func) params result) ;;
        ret []
      else
        items <- lift (obind (get_data result) py_iter) ;;
        merge func get_data rest (data ++ items)
  end.

(** [sched] is the order in which the pool happens to run the page
    requests; it is not an argument of the Python function. The
    [while] loop is given [count] rounds of fuel, which a positive
    [limit] never uses up; with a non-positive [limit] and a positive
    [count] the Python loop does not end, and neither does this one
    whatever its fuel, so the call is recorded as [Diverge] (the
    requests it would go on submitting are not). *)
Definition batch_request (sched : list nat) (func : adapter B)
    (params : gmap string pyval)
    (get_data get_count : pyval → outcome pyval) (limit : Z)
  : M B (list pyval) :=
  result <- call_with_page func (page 0 1) params ;;
  flag <- lift (subscript result "result") ;;
  if negb (truthy flag) then
    _ <- log_error LoggerRoot (CountRequestError (path func) result) ;;
    ret []
  else
    count <- lift (obind (get_count result) as_int) ;;
    match page_starts (Z.to_nat count) 0 count limit with
    | None => lift Diverge
    | Some starts =>
        let tasks := request_params limit params <$> starts in
        futures <- pool_join sched func tasks ;;
        merge func get_data (zip tasks futures) []
    end.
End BatchRequest.

(** ** The callers of batch_request *)

(** [kwargs] as both [get_business_host_topo] and [get_business_host]
    build it: three fixed keys, and the filter on [bk_host_innerip]
    under [if ip_list:]. *)
Definition host_property_filter (ip_list : pyval) : pyval :=
  PDict {[ "condition" := PStr "AND";
           "rules" := PList [PDict {[ "field" := PStr "bk_host_innerip";
                                      "operator" := PStr "in";
                                      "value" := ip_list ]}] ]}.

Definition host_kwargs (bk_biz_id supplier_account host_fields ip_list : pyval)
  : gmap string pyval :=
  let kwargs : gmap string pyval :=
    {[ "bk_biz_id" := bk_biz_id;
       "bk_supplier_account" := supplier_account;
       "fields" := py_or host_fields (PList []) ]} in
  if truthy ip_list
  then <["host_property_filter" := host_property_filter ip_list]> kwargs
  else kwargs.

(** The inner loop of [get_business_host_topo] over
    [parent_set["module"]]. *)
Fixpoint topo_modules (parent_modules modules : list pyval)
  : outcome (list pyval) :=
  match parent_modules with
  | [] => Ok modules
  | parent_module :: rest =>
      obind (subscript parent_module "bk_module_id") (λ mid,
      obind (subscript parent_module "bk_module_name") (λ mname,
      topo_modules rest
        (modules ++ [PDict {[ "bk_module_id" := mid;
                              "bk_module_name" := mname ]}])))
  end.

(** The loop over [host_topo["topo"]], filling [host_info["set"]] and
    [host_info["module"]]. *)
Fixpoint topo_sets (parent_sets sets modules : list pyval)
  : outcome (list pyval * list pyval) :=
  match parent_sets with
  | [] => Ok (sets, modules)
  | parent_set :: rest =>
      obind (subscript parent_set "bk_set_id") (λ sid,
      obind (subscript parent_set "bk_set_name") (λ sname,
      obind (obind (subscript parent_set "module") py_iter) (λ parent_modules,
      obind (topo_modules parent_modules modules) (λ modules',
      topo_sets rest
        (sets ++ [PDict {[ "bk_set_id" := sid; "bk_set_name" := sname ]}])
        modules'))))
  end.

Definition host_info (host_topo : pyval) : outcome pyval :=
  obind (subscript host_topo "host") (λ host,
  obind (obind (subscript host_topo "topo") py_iter) (λ parent_sets,
  obind (topo_sets parent_sets [] []) (λ sm,
  Ok (PDict {[ "host" := host;
               "module" := PList sm.2;
               "set" := PList sm.1 ]})))).

(** [{"result": ..., "message": ..., "data": ...}] *)
Definition reply (result : bool) (message : string) (data : pyval) : pyval :=
  PDict {[ "result" := PBool result;
           "message" := PStr message;
           "data" := data ]}.

Section Cmdb.
Context {B : Type}.

(** [client.cc] of the ESB client, with the three components the
    module calls. *)
Record client : Type := Client {
  list_biz_hosts_topo : adapter B;
  list_biz_hosts : adapter B;
  search_business : adapter B
}.

(** What the module imports from the rest of the project:
    [settings.ESB_GET_CLIENT_BY_USER], the role table of
    gcloud/core/roles.py, [handle_api_error] of gcloud/utils/handlers.py
    and the translated text of the "business is not unique" message
    for a business id and a count. *)
Variable get_client_by_user : string → client.
Variable CC_V2_ROLE_MAP : gmap string string.
Variable handle_api_error : string → string → pyval → pyval → string.
Variable not_unique_message : Z → pyval → string.

Definition get_business_host_topo (sched : list nat) (username : string)
    (bk_biz_id supplier_account host_fields ip_list : pyval)
  : M B (list pyval) :=
  let client := get_client_by_user username in
  let kwargs := host_kwargs bk_biz_id supplier_account host_fields ip_list in
  result <- batch_request sched (list_biz_hosts_topo client) kwargs
              default_get_data default_get_count 500 ;;
  lift (omapM host_info result).

Definition get_business_host (sched : list nat) (username : string)
    (bk_biz_id supplier_account host_fields ip_list : pyval)
  : M B (list pyval) :=
  let kwargs := host_kwargs bk_biz_id supplier_account host_fields ip_list in
  let client := get_client_by_user username in
  batch_request sched (list_biz_hosts client) kwargs
    default_get_data default_get_count 500.

(** [biz_data[CC_V2_ROLE_MAP[group]].split(",")] *)
Definition role_members (biz_data group : pyval) : outcome (list string) :=
  obind (match group with
         | PStr g => match CC_V2_ROLE_MAP !! g with
                     | Some role => Ok role
                     | None => Raise KeyError
                     end
         | PList _ | PDict _ => Raise TypeError
         | _ => Raise KeyError
         end) (λ role,
  obind (subscript biz_data role) (λ members,
  match members with
  | PStr s => Ok (split "," s)
  | _ => Raise AttributeError
  end)).

(** [for group in receiver_group: receivers.extend(...)] *)
Fixpoint extend_receivers (biz_data : pyval) (groups : list pyval)
    (receivers : list string) : outcome (list string) :=
  match groups with
  | [] => Ok receivers
  | group :: rest =>
      obind (role_members biz_data group) (λ members,
      extend_receivers biz_data rest (receivers ++ members))
  end.

(** The groups the loop goes through: a [str] is split on commas
    first. *)
Definition receiver_groups (receiver_group : pyval) : outcome (list pyval) :=
  match receiver_group with
  | PStr s => Ok (PStr <$> split "," s)
  | v => py_iter v
  end.

(** [kwargs] of [get_notify_receivers] *)
Definition business_query (supplier_account : pyval) (biz_cc_id : Z)
  : pyval :=
  PDict {[ "bk_supplier_account" := supplier_account;
           "condition" := PDict {[ "bk_biz_id" := PInt biz_cc_id ]} ]}.

(** [cc_result["data"]["count"]] and [cc_result["data"]["info"][0]] *)
Definition business_count (cc_result : pyval) : outcome pyval :=
  obind (subscript cc_result "data") (λ d, subscript d "count").

Definition first_business (cc_result : pyval) : outcome pyval :=
  obind (subscript cc_result "data") (λ d,
  obind (subscript d "info") (λ i, subscript_int i 0)).

(** [biz_cc_id] is taken as an integer, on which [int] is the
    identity, and [more_receiver] as a [str]. *)
Definition get_notify_receivers (client : client) (biz_cc_id : Z)
    (supplier_account receiver_group : pyval) (more_receiver : string)
    (logger : option logger_id) : M B pyval :=
  let more_receivers : list string := strip <$> split "," more_receiver in
  if negb (truthy receiver_group) then
    ret (reply true "success" (PStr (join "," more_receivers)))
  else
    let logger := default LoggerCelery logger in
    let kwargs := business_query supplier_account biz_cc_id in
    cc_result <- invoke (search_business client) [kwargs] ∅ ;;
    flag <- lift (subscript cc_result "result") ;;
    if negb (truthy flag) then
      let message :=
        handle_api_error "CMDB" "cc.search_business" kwargs cc_result in
      _ <- log_error logger (Message message) ;;
      ret (reply false message PNone)
    else
      biz_count <- lift (business_count cc_result) ;;
      if py_ne_int biz_count 1 then
        _ <- log_error logger
               (Message (handle_api_error "CMDB" "cc.search_business"
                           kwargs cc_result)) ;;
        ret (reply false (not_unique_message biz_cc_id biz_count) PNone)
      else
        biz_data <- lift (first_business cc_result) ;;
        groups <- lift (receiver_groups receiver_group) ;;
        receivers <- lift (extend_receivers biz_data groups []) ;;
        let receivers :=
          if truthy (PStr more_receiver)
          then receivers ++ more_receivers else receivers in
        ret (reply true "success" (PStr (join "," (sorted_set receivers)))).
End Cmdb.

Arguments client B : clear implicits.

(** ** Sample backends *)

(** Replies in the shape the CMDB gives them, and stateless adapters
    that answer with them; the probe is told from a page request by its
    window. *)
Definition ok_reply (count : Z) (info : list pyval) : pyval :=
  PDict {[ "result" := PBool true;
           "data" := PDict {[ "count" := PInt count; "info" := PList info ]} ]}.

Definition failed_reply : pyval :=
  PDict {[ "result" := PBool false;
           "message" := PStr "business not found";
           "data" := PNone ]}.

Definition window_start (k : gmap string pyval) : outcome Z :=
  match k !! "page" with
  | Some p => obind (subscript p "start") as_int
  | None => Raise TypeError
  end.

Definition stateless (f : gmap string pyval → outcome pyval)
  : unit → list pyval → gmap string pyval → outcome pyval * unit :=
  λ b _ k, (f k, b).

(** The CMDB refuses every request. *)
Definition refusing : adapter unit :=
  Adapter "/v2/cc/list_biz_hosts/" "list_biz_hosts"
    (stateless (λ _, Ok failed_reply)).

(** The CMDB cannot be reached. *)
Definition unreachable : adapter unit :=
  Adapter "/v2/cc/list_biz_hosts/" "list_biz_hosts"
    (stateless (λ _, Raise (OtherError "ConnectionError"))).

(** 1200 hosts; a page holds one record, which names its window. *)
Definition hosts_reply (k : gmap string pyval) : outcome pyval :=
  Ok (ok_reply 1200 [default PNone (k !! "page")]).

Definition serving : adapter unit :=
  Adapter "/v2/cc/list_biz_hosts/" "list_biz_hosts" (stateless hosts_reply).

(** A refusal that still carries an (empty) data section. *)
Definition failed_empty_reply : pyval :=
  PDict {[ "result" := PBool false;
           "message" := PStr "business not found";
           "data" := PDict {[ "count" := PInt 0; "info" := PList [] ]} ]}.

(** As [serving], but the window at 500 is answered with [failure]. *)
Definition refusing_one_page (failure : pyval) : adapter unit :=
  Adapter "/v2/cc/list_biz_hosts/" "list_biz_hosts"
    (stateless (λ k,
       match window_start k with
       | Ok 500 => Ok failure
       | _ => hosts_reply k
       end)).

(** A role table with two groups, and a CMDB that knows one business. *)
Definition sample_roles : gmap string string :=
  {[ "Maintainers" := "bk_biz_maintainer"; "Developer" := "bk_biz_developer" ]}.

Definition sample_business : pyval :=
  PDict {[ "bk_biz_id" := PInt 2;
           "bk_biz_maintainer" := PStr "tom,amy";
           "bk_biz_developer" := PStr "bob,tom" ]}.

Definition sample_client : client unit :=
  Client serving serving
    (Adapter "/v2/cc/search_business/" "search_business"
       (λ b _ _, (Ok (ok_reply 1 [sample_business]), b))).

Definition sample_error (system api : string) (kwargs result : pyval) : string :=
  String.append system (String.append " " api).

Definition sample_not_unique (biz_cc_id : Z) (biz_count : pyval) : string :=
  "business is not unique".

Definition sample_host_topo : pyval :=
  PDict {[ "host" := PDict {[ "bk_host_id" := PInt 4 ]};
           "topo" :=
             PList [PDict {[ "bk_set_id" := PInt 1;
                             "bk_set_name" := PStr "set";
                             "module" :=
                               PList [PDict {[ "bk_module_id" := PInt 2;
                                               "bk_module_name" := PStr "mod";
                                               "extra" := PNone ]}] ]}] ]}.

Definition fresh : world unit := World tt [] [].

(** A CMDB without hosts, and one whose page at 500 comes back as
    [None]. *)
Definition empty_cmdb : adapter unit :=
  Adapter "/v2/cc/list_biz_hosts/" "list_biz_hosts"
    (stateless (λ _, Ok (ok_reply 0 []))).

Definition dropping_one_page : adapter unit := refusing_one_page PNone.

(** The entries [get_business_host_topo] keeps of a set and of a
    module. *)
Definition set_entry (bk_set_id bk_set_name : pyval) : pyval :=
  PDict {[ "bk_set_id" := bk_set_id; "bk_set_name" := bk_set_name ]}.

Definition module_entry (bk_module_id bk_module_name : pyval) : pyval :=
  PDict {[ "bk_module_id" := bk_module_id;
           "bk_module_name" := bk_module_name ]}.

(** A set as its id, its name and the ids and names of its modules. *)
Definition set_of (entry : pyval * pyval * list (pyval * pyval)) : pyval :=
  set_entry entry.1.1 entry.1.2.

Definition modules_of (entry : pyval * pyval * list (pyval * pyval))
  : list pyval :=
  (λ m : pyval * pyval, module_entry m.1 m.2) <$> entry.2.

(** [sep in s] for a character [sep] *)
Fixpoint has_char (sep : ascii) (s : string) : bool :=
  match s with
  | EmptyString => false
  | String c rest => Ascii.eqb c sep || has_char sep rest
  end.

(** Clients whose business lookup is refused, and finds two
    businesses; and one whose second host record has no topology. *)
Definition refused_client : client unit :=
  Client serving serving
    (Adapter "/v2/cc/search_business/" "search_business"
       (λ b _ _, (Ok failed_reply, b))).

Definition ambiguous_client : client unit :=
  Client serving serving
    (Adapter "/v2/cc/search_business/" "search_business"
       (λ b _ _, (Ok (ok_reply 2 [sample_business; sample_business]), b))).

Definition half_mapped_client : client unit :=
  Client
    (Adapter "/v2/cc/list_biz_hosts_topo/" "list_biz_hosts_topo"
       (stateless (λ _,
          Ok (ok_reply 2 [sample_host_topo;
                          PDict {[ "host" := PDict {[ "bk_host_id" := PInt 5 ]}
                                ]}]))))
    serving
    (Adapter "/v2/cc/search_business/" "search_business"
       (λ b _ _, (Ok (ok_reply 1 [sample_business]), b))).

(** A client all of whose components are refused. *)
Definition down_client : client unit := Client refusing refusing refusing.

(** * Properties *)

(** ** Sanity checks of the string and value primitives *)

Example split_empty : split "," "" = [""].
Proof. reflexivity. Qed.

Example split_three : split "," "a,,bc" = ["a"; ""; "bc"].
Proof. reflexivity. Qed.

Example strip_both : strip "  tom	 " = "tom".
Proof. reflexivity. Qed.

Example join_three : join "," ["a"; ""; "bc"] = "a,,bc".
Proof. reflexivity. Qed.

Example sorted_set_dups :
  sorted_set ["tom"; "amy"; "tom"; "bob"] = ["amy"; "bob"; "tom"].
Proof. vm_compute. reflexivity. Qed.

Example failed_reply_is_truthy :
  truthy (PDict {[ "result" := PBool false; "data" := PNone ]}) = true.
Proof. vm_compute. reflexivity. Qed.

(** A dictionary that answers a subscript has a key, so it is truthy. *)
Lemma subscript_truthy (v x : pyval) (k : string) :
  subscript v k = Ok x → truthy v = true.
Proof.
  destruct v as [| | | | |d]; simpl; try discriminate.
  destruct (d !! k) as [y|] eqn:Hk; [intros _|discriminate].
  destruct (map_to_list d) as [|kv l] eqn:Hl; [|reflexivity].
  apply map_to_list_empty_iff in Hl. subst d.
  rewrite lookup_empty in Hk. discriminate.
Qed.

(** ** The page plan *)

Section PagePlan.
Variables count limit : Z.
Hypothesis limit_pos : 0 < limit.

Lemma rounds_done (start : Z) : count ≤ start → rounds count limit start = O.
Proof using limit_pos.
  intros Hge. unfold rounds.
  assert ((count - start + limit - 1) / limit ≤ 0); [|lia].
  apply Z.lt_succ_r, Z.div_lt_upper_bound; lia.
Qed.

Lemma rounds_step (start : Z) :
  start < count → rounds count limit start = S (rounds count limit (start + limit)).
Proof using limit_pos.
  intros Hlt. unfold rounds.
  replace (count - start + limit - 1)
    with (count - (start + limit) + limit - 1 + 1 * limit) by lia.
  rewrite Z.div_add by lia.
  assert (0 ≤ (count - (start + limit) + limit - 1) / limit).
  { apply Z.div_pos; lia. }
  lia.
Qed.

(** With enough fuel the loop ends, and [start] has gone through
    [start], [start + limit], [start + 2 * limit], ... *)
Lemma page_starts_from (fuel : nat) (start : Z) :
  (Z.to_nat (count - start) ≤ fuel)%nat →
  page_starts fuel start count limit
  = Some ((λ k : nat, start + Z.of_nat k * limit) <$> seq 0 (rounds count limit start)).
Proof using limit_pos.
  revert start. induction fuel as [|fuel IH]; intros start Hfuel.
  - simpl. destruct (Z.ltb_spec start count) as [Hlt|Hge]; [lia|].
    by rewrite rounds_done.
  - simpl. destruct (Z.ltb_spec start count) as [Hlt|Hge].
    + rewrite IH by lia. rewrite (rounds_step start Hlt). simpl.
      f_equal. f_equal; [lia|].
      rewrite <- fmap_S_seq, <- list_fmap_compose.
      apply list_fmap_ext. intros _ k _. simpl. lia.
    + by rewrite rounds_done.
Qed.

Lemma page_starts_plan :
  0 ≤ count →
  page_starts (Z.to_nat count) 0 count limit
  = Some ((λ k : nat, Z.of_nat k * limit) <$> seq 0 (rounds count limit 0)).
Proof using limit_pos.
  intros Hc. rewrite page_starts_from by lia. reflexivity.
Qed.
End PagePlan.

(** With a non-positive [limit] and records to fetch, [start] never
    reaches [count]: no amount of fuel ends the loop. *)
Lemma page_starts_spins (fuel : nat) (start count limit : Z) :
  limit ≤ 0 → start < count → page_starts fuel start count limit = None.
Proof.
  revert start. induction fuel as [|fuel IH]; intros start Hl Hlt; simpl.
  - destruct (Z.ltb_spec start count); [reflexivity|lia].
  - destruct (Z.ltb_spec start count); [|lia].
    rewrite IH by lia. reflexivity.
Qed.

Lemma rounds_lt (count limit : Z) (k : nat) :
  0 < limit → 0 ≤ count →
  (k < rounds count limit 0)%nat ↔ Z.of_nat k * limit < count.
Proof.
  intros Hl Hc. unfold rounds.
  pose proof (Z.div_mod (count - 0 + limit - 1) limit ltac:(lia)) as Hdm.
  pose proof (Z.mod_pos_bound (count - 0 + limit - 1) limit Hl) as Hm.
  set (q := (count - 0 + limit - 1) / limit) in *.
  split; intros H.
  - assert (Z.of_nat k + 1 ≤ q) by lia. nia.
  - assert (Z.of_nat k < q) by nia. lia.
Qed.

Lemma elem_of_plan (count limit s : Z) :
  0 < limit → 0 ≤ count →
  s ∈ (λ k : nat, Z.of_nat k * limit) <$> seq 0 (rounds count limit 0)
  ↔ ∃ k, 0 ≤ k ∧ s = k * limit ∧ s < count.
Proof.
  intros Hl Hc. rewrite list_elem_of_fmap. split.
  - intros (k & -> & Hk). apply elem_of_seq in Hk.
    exists (Z.of_nat k). split; [lia|]. split; [reflexivity|].
    apply rounds_lt; lia.
  - intros (k & Hk & -> & Hlt). exists (Z.to_nat k).
    split; [f_equal; lia|]. apply elem_of_seq. split; [lia|]. simpl.
    apply rounds_lt; lia.
Qed.

Lemma plan_sorted (limit : Z) (a n : nat) :
  0 < limit →
  StronglySorted Z.lt ((λ k : nat, Z.of_nat k * limit) <$> seq a n).
Proof.
  intros Hl. revert a. induction n as [|n IH]; intros a; simpl.
  - constructor.
  - constructor; [apply IH|].
    apply Forall_forall. intros y Hy.
    apply list_elem_of_fmap in Hy as (k & -> & Hk).
    apply elem_of_seq in Hk. nia.
Qed.

Lemma plan_lookup (limit : Z) (n i : nat) (s : Z) :
  ((λ k : nat, Z.of_nat k * limit) <$> seq 0 n) !! i = Some s →
  s = Z.of_nat i * limit.
Proof.
  rewrite list_lookup_fmap. intros H.
  destruct (seq 0 n !! i) as [k|] eqn:Hk; [|discriminate].
  apply lookup_seq in Hk as [-> _]. simpl in H. congruence.
Qed.

Lemma request_params_page (limit start : Z) (params : gmap string pyval) :
  params !! "page" = None →
  request_params limit params start !! "page" = Some (page start limit).
Proof.
  intros H. unfold request_params.
  rewrite lookup_union_r by exact H. apply lookup_singleton_eq.
Qed.

(** C2: for a non-negative [count] and a positive [limit] the loop of
    [batch_request] ends and plans exactly the windows that start at
    0, limit, 2 * limit, ... below [count]; the request built for the
    window at [start] carries the page
    [{"limit": limit, "start": start}], the full [limit] for the last
    window too; the windows are in ascending order, each starts where
    the one before it ends, every offset of [0, count) lies in exactly
    one of them, no window is planned for [count = 0], and 1200 records
    in pages of 500 give the three pages of limit 500 at 0, 500 and
    1000. *)
Theorem page_plan_windows (count limit : Z) :
  0 ≤ count → 0 < limit →
  ∃ starts,
    page_starts (Z.to_nat count) 0 count limit = Some starts
    ∧ starts = (λ k : nat, Z.of_nat k * limit) <$> seq 0 (rounds count limit 0)
    ∧ (∀ s, s ∈ starts ↔ ∃ k, 0 ≤ k ∧ s = k * limit ∧ s < count)
    ∧ (∀ params : gmap string pyval, params !! "page" = None →
         Forall2 (λ s kw,
                    kw !! "page"
                    = Some (PDict {[ "limit" := PInt limit;
                                     "start" := PInt s ]})
                    ∧ (∀ key, key ≠ "page" → kw !! key = params !! key))
           starts (request_params limit params <$> starts))
    ∧ StronglySorted Z.lt starts
    ∧ (∀ (i : nat) s s',
         starts !! i = Some s → starts !! S i = Some s' → s' = s + limit)
    ∧ (∀ x, 0 ≤ x < count →
         ∃ s, s ∈ starts ∧ s ≤ x < s + limit
              ∧ ∀ s', s' ∈ starts → s' ≤ x < s' + limit → s' = s)
    ∧ (count = 0 → starts = [])
    ∧ (count = 1200 → limit = 500 →
       starts = [0; 500; 1000]
       ∧ ∀ params : gmap string pyval, params !! "page" = None →
           (λ kw : gmap string pyval, kw !! "page")
             <$> (request_params limit params <$> starts)
           = [Some (PDict {[ "limit" := PInt 500; "start" := PInt 0 ]});
              Some (PDict {[ "limit" := PInt 500; "start" := PInt 500 ]});
              Some (PDict {[ "limit" := PInt 500; "start" := PInt 1000 ]})]).
Proof.
  intros Hc Hl. eexists. split; [by apply page_starts_plan|].
  split; [reflexivity|].
  split; [intros s; by apply elem_of_plan|].
  split.
  { intros params Hp. apply Forall2_fmap_r, Forall_Forall2_diag, Forall_forall.
    intros s _. split.
    - rewrite request_params_page by done. reflexivity.
    - intros key Hkey. unfold request_params.
      rewrite lookup_union_l; [done|]. by rewrite lookup_singleton_ne. }
  split; [by apply plan_sorted|].
  split.
  { intros i s s' Hs Hs'. apply plan_lookup in Hs, Hs'. lia. }
  split.
  { intros x Hx. exists (x / limit * limit).
    pose proof (Z.div_mod x limit ltac:(lia)) as Hdm.
    pose proof (Z.mod_pos_bound x limit Hl) as Hm.
    assert (0 ≤ x / limit) by (apply Z.div_pos; lia).
    split; [|split].
    - apply elem_of_plan; [lia..|]. exists (x / limit). nia.
    - nia.
    - intros s' Hs' Hin. apply elem_of_plan in Hs' as (k & Hk & -> & _); [|lia..].
      f_equal. nia. }
  split.
  { intros ->. by rewrite rounds_done. }
  intros -> ->. split; [reflexivity|].
  intros params Hp.
  change ((λ k : nat, Z.of_nat k * 500) <$> seq 0 (rounds 1200 500 0))
    with [0; 500; 1000].
  cbn [fmap list_fmap].
  by rewrite !request_params_page.
Qed.

Lemma page_plan_windows_witness :
  ∃ starts,
    page_starts (Z.to_nat 1200) 0 1200 500 = Some starts
    ∧ starts = [0; 500; 1000]
    ∧ request_params 500 {[ "bk_biz_id" := PInt 2 ]} <$> starts
      = [ {[ "bk_biz_id" := PInt 2;
             "page" := PDict {[ "limit" := PInt 500; "start" := PInt 0 ]} ]};
          {[ "bk_biz_id" := PInt 2;
             "page" := PDict {[ "limit" := PInt 500; "start" := PInt 500 ]} ]};
          {[ "bk_biz_id" := PInt 2;
             "page" := PDict {[ "limit" := PInt 500; "start" := PInt 1000 ]} ]}
        ]
    ∧ (λ kw : gmap string pyval, kw !! "page")
        <$> (request_params 500 {[ "bk_biz_id" := PInt 2 ]} <$> starts)
      = [Some (PDict {[ "limit" := PInt 500; "start" := PInt 0 ]});
         Some (PDict {[ "limit" := PInt 500; "start" := PInt 500 ]});
         Some (PDict {[ "limit" := PInt 500; "start" := PInt 1000 ]})].
Proof.
  destruct (page_plan_windows 1200 500 ltac:(lia) ltac:(lia))
    as (starts & Hrun & _ & _ & _ & _ & _ & _ & _ & Hex).
  destruct (Hex eq_refl eq_refl) as [Hstarts Hpages].
  exists starts. split; [exact Hrun|]. split; [exact Hstarts|].
  split; [|apply Hpages; reflexivity].
  rewrite Hstarts. vm_compute. reflexivity.
Defined.

(** ** The monad *)

Section MonadFacts.
Context {B : Type}.
Implicit Types w : world B.

Lemma bind_ok {A C} (m : M B A) (k : A → M B C) w w' (a : A) :
  m w = (Ok a, w') → bind m k w = k a w'.
Proof. intros H. unfold bind. by rewrite H. Qed.

Lemma bind_raise {A C} (m : M B A) (k : A → M B C) w w' (e : exn) :
  m w = (Raise e, w') → bind m k w = (Raise e, w').
Proof. intros H. unfold bind. by rewrite H. Qed.

Lemma bind_lift_ok {A C} (o : outcome A) (k : A → M B C) w (a : A) :
  o = Ok a → bind (lift o) k w = k a w.
Proof. intros ->. reflexivity. Qed.

(** Two runs that agree on what each step returns agree on what the
    whole returns, whatever happens to the world in between. *)
Lemma bind_fst_eq {A C} (m1 m2 : M B A) (k1 k2 : A → M B C) w1 w2 :
  (m1 w1).1 = (m2 w2).1 →
  (∀ a w1' w2', (k1 a w1').1 = (k2 a w2').1) →
  (bind m1 k1 w1).1 = (bind m2 k2 w2).1.
Proof.
  intros Hm Hk. unfold bind.
  destruct (m1 w1) as [[a1|e1|] w1'], (m2 w2) as [[a2|e2|] w2'];
    simpl in Hm; try discriminate; simpl; try congruence.
  injection Hm as ->. apply Hk.
Qed.

Lemma invoke_calls (func : adapter B) a k w :
  calls (invoke func a k w).2 = calls w ++ [Call (name func) a k]
  ∧ log (invoke func a k w).2 = log w.
Proof. unfold invoke. by destruct (run func (backend w) a k). Qed.

Lemma call_with_page_ok (func : adapter B) pg params w w' (r : pyval) :
  call_with_page func pg params w = (Ok r, w') →
  params !! "page" = None
  ∧ calls w' = calls w ++ [Call (name func) [] (<["page" := pg]> params)]
  ∧ log w' = log w.
Proof.
  unfold call_with_page. destruct (params !! "page"); [discriminate|].
  intros H. pose proof (invoke_calls func [] (<["page" := pg]> params) w) as Hc.
  rewrite H in Hc. by destruct Hc.
Qed.
End MonadFacts.

(** ** The pool *)

Section PoolFacts.
Context {B : Type}.
Implicit Types (w : world B) (tasks : list (gmap string pyval)).
Implicit Types futures : list (option (outcome pyval)).

Lemma run_order_covers (sched : list nat) (n i : nat) :
  (i < n)%nat → i ∈ run_order sched n.
Proof.
  intros Hi. unfold run_order. apply elem_of_app.
  destruct (decide (i ∈ remove_dups (filter (λ i, (i < n)%nat) sched)));
    [by left|right].
  apply list_elem_of_filter. split; [done|]. apply elem_of_seq. lia.
Qed.

Lemma run_tasks_length (func : adapter B) order tasks futures w :
  length (run_tasks func order tasks futures w).1 = length futures.
Proof.
  revert futures w. induction order as [|i order IH]; intros futures w;
    simpl; [done|].
  destruct (tasks !! i) as [kw|]; [|apply IH].
  destruct (invoke func [] kw w) as [r w'].
  rewrite IH. apply length_insert.
Qed.

Lemma run_tasks_resolved (func : adapter B) order tasks futures w (i : nat) :
  length futures = length tasks → (i < length tasks)%nat →
  i ∈ order ∨ resolved futures i →
  resolved (run_tasks func order tasks futures w).1 i.
Proof.
  revert futures w. induction order as [|j order IH];
    intros futures w Hlen Hi Hor; simpl.
  - destruct Hor as [Hin|Hres]; [by apply elem_of_nil in Hin|done].
  - destruct (tasks !! j) as [kw|] eqn:Hj.
    + destruct (invoke func [] kw w) as [r w'].
      apply IH; [by rewrite length_insert|done|].
      destruct (decide (i = j)) as [->|Hne].
      * right. exists r. apply list_lookup_insert_eq. lia.
      * destruct Hor as [Hin|[r' Hres]].
        -- left. apply elem_of_cons in Hin as [?|?]; [done|done].
        -- right. exists r'. by rewrite list_lookup_insert_ne.
    + apply IH; [done..|].
      destruct Hor as [Hin|Hres]; [|by right].
      apply elem_of_cons in Hin as [->|Hin]; [|by left].
      apply lookup_ge_None in Hj. lia.
Qed.

Lemma run_tasks_log (func : adapter B) order tasks futures w :
  log (run_tasks func order tasks futures w).2 = log w.
Proof.
  revert futures w. induction order as [|j order IH]; intros futures w;
    simpl; [done|].
  destruct (tasks !! j) as [kw|]; [|apply IH].
  pose proof (invoke_calls func [] kw w) as [_ Hl].
  destruct (invoke func [] kw w) as [r w']. rewrite IH. exact Hl.
Qed.

(** Running the pool leaves one future per task, each resolved. *)
Lemma pool_run_resolved (sched : list nat) (func : adapter B) tasks w :
  length (pool_run sched func tasks w).1 = length tasks
  ∧ log (pool_run sched func tasks w).2 = log w
  ∧ ∀ i, (i < length tasks)%nat → resolved (pool_run sched func tasks w).1 i.
Proof.
  unfold pool_run. split; [|split].
  - by rewrite run_tasks_length, length_replicate.
  - apply run_tasks_log.
  - intros i Hi. apply run_tasks_resolved;
      [by rewrite length_replicate|done|].
    left. by apply run_order_covers.
Qed.

Lemma pool_join_ok (sched : list nat) (func : adapter B) tasks w futures w' :
  pool_join sched func tasks w = (Ok futures, w') →
  pool_run sched func tasks w = (futures, w').
Proof.
  unfold pool_join. destruct (pool_run sched func tasks w) as [fs w0].
  destruct (forallb settled fs); [|discriminate]. congruence.
Qed.

(** What holds of every outcome the adapter can give for a task holds
    of every resolved future. *)
Lemma run_tasks_invariant (func : adapter B)
    (P : nat → outcome pyval → Prop) order tasks futures w :
  (∀ b i kw, tasks !! i = Some kw → P i (run func b [] kw).1) →
  (∀ i r, futures !! i = Some (Some r) → P i r) →
  ∀ i r, (run_tasks func order tasks futures w).1 !! i = Some (Some r) →
         P i r.
Proof.
  intros Hrun. revert futures w.
  induction order as [|j order IH]; intros futures w Hgood; simpl; [done|].
  destruct (tasks !! j) as [kw|] eqn:Hj; [|by apply IH].
  destruct (invoke func [] kw w) as [r0 w'] eqn:Hinv.
  apply IH. intros i r Hi.
  destruct (decide (i = j)) as [->|Hne].
  - destruct (decide (j < length futures)%nat) as [Hlt|Hge].
    + rewrite list_lookup_insert_eq in Hi by done.
      injection Hi as <-.
      unfold invoke in Hinv. specialize (Hrun (backend w) j kw Hj).
      destruct (run func (backend w) [] kw) as [r1 b1].
      simpl in Hrun. by injection Hinv as <- _.
    + rewrite list_insert_ge in Hi by lia. by apply Hgood.
  - rewrite list_lookup_insert_ne in Hi by done. by apply Hgood.
Qed.

Lemma pool_run_invariant (sched : list nat) (func : adapter B)
    (P : nat → outcome pyval → Prop) tasks w :
  (∀ b i kw, tasks !! i = Some kw → P i (run func b [] kw).1) →
  ∀ i, (i < length tasks)%nat →
       ∃ r, (pool_run sched func tasks w).1 !! i = Some (Some r) ∧ P i r.
Proof.
  intros Hrun i Hi.
  destruct (pool_run_resolved sched func tasks w) as (_ & _ & Hres).
  destruct (Hres i Hi) as [r Hr]. exists r. split; [done|].
  eapply (run_tasks_invariant func P); [exact Hrun| |exact Hr].
  intros j r' Hj. apply lookup_replicate in Hj as [? _]. discriminate.
Qed.

(** An adapter that returns or raises on every call lets the pool be
    joined. *)
Lemma pool_join_returns (sched : list nat) (func : adapter B) tasks w :
  (∀ b kw, (run func b [] kw).1 ≠ Diverge) →
  pool_join sched func tasks w
  = (Ok (pool_run sched func tasks w).1, (pool_run sched func tasks w).2).
Proof.
  intros Hrun. unfold pool_join.
  pose proof (pool_run_invariant sched func (λ _ o, o ≠ Diverge) tasks w
                ltac:(intros b i kw _; apply Hrun)) as Hinv.
  destruct (pool_run_resolved sched func tasks w) as (Hlen & _ & _).
  destruct (pool_run sched func tasks w) as [futures w']. simpl in *.
  assert (Forall settled futures) as Hall; [|by apply forallb_True in Hall as ->%Is_true_true].
  apply Forall_lookup. intros i future Hi.
  destruct (Hinv i) as (r & Hr & Hnd); [rewrite <- Hlen; by eapply lookup_lt_Some|].
  rewrite Hi in Hr. injection Hr as ->. by destruct r.
Qed.

(** Against an adapter whose answer is a function [f] of its
    arguments, each future holds [f] of its own task's parameters,
    whatever the order the tasks ran in. *)
Lemma pool_run_pure (sched : list nat) (func : adapter B)
    (f : list pyval → gmap string pyval → outcome pyval) tasks w :
  (∀ b a k, (run func b a k).1 = f a k) →
  (pool_run sched func tasks w).1 = (λ kw, Some (f [] kw)) <$> tasks.
Proof.
  intros Hpure.
  destruct (pool_run_resolved sched func tasks w) as (Hlen & _ & _).
  pose proof (pool_run_invariant sched func
                (λ i r, ∃ kw, tasks !! i = Some kw ∧ r = f [] kw)
                tasks w
                ltac:(intros b j kw' Hj; exists kw'; by rewrite Hpure))
    as Hinv.
  apply list_eq. intros i. rewrite list_lookup_fmap.
  destruct (tasks !! i) as [kw|] eqn:Hi; simpl.
  - destruct (Hinv i) as (r & -> & kw' & Hkw' & ->);
      [by eapply lookup_lt_Some|].
    congruence.
  - apply lookup_ge_None. rewrite Hlen. by apply lookup_ge_None.
Qed.

Lemma pool_join_pure (sched1 sched2 : list nat) (func : adapter B)
    (f : list pyval → gmap string pyval → outcome pyval) tasks w1 w2 :
  (∀ b a k, (run func b a k).1 = f a k) →
  (pool_join sched1 func tasks w1).1 = (pool_join sched2 func tasks w2).1.
Proof.
  intros Hpure. unfold pool_join.
  pose proof (pool_run_pure sched1 func f tasks w1 Hpure) as H1.
  pose proof (pool_run_pure sched2 func f tasks w2 Hpure) as H2.
  destruct (pool_run sched1 func tasks w1) as [fs1 w1'].
  destruct (pool_run sched2 func tasks w2) as [fs2 w2'].
  simpl in *. subst fs1 fs2. by destruct (forallb settled _).
Qed.
End PoolFacts.

(** ** batch_request *)

(** C3: when the probe answers with a false success flag,
    [batch_request] logs the adapter's path and the raw response,
    returns the empty list, and the adapter has been called once only,
    with the window of start 0 and limit 1. *)
Theorem probe_failure_returns_empty {B : Type} (sched : list nat)
    (func : adapter B) (params : gmap string pyval)
    (get_data get_count : pyval → outcome pyval) (limit : Z)
    (w w' : world B) (r flag : pyval) :
  call_with_page func (page 0 1) params w = (Ok r, w') →
  subscript r "result" = Ok flag →
  truthy flag = false →
  batch_request sched func params get_data get_count limit w
  = (Ok [],
     World (backend w')
       (calls w ++ [Call (name func) [] (<["page" := page 0 1]> params)])
       (log w ++ [(LoggerRoot, CountRequestError (path func) r)])).
Proof.
  intros Hprobe Hflag Hfalse.
  destruct (call_with_page_ok _ _ _ _ _ _ Hprobe) as (_ & Hcalls & Hlog).
  unfold batch_request.
  rewrite (bind_ok _ _ _ _ _ Hprobe), (bind_lift_ok _ _ _ _ Hflag), Hfalse.
  simpl. unfold bind, log_error, ret. simpl. by rewrite Hcalls, Hlog.
Qed.

Lemma probe_failure_returns_empty_witness :
  batch_request [] refusing ∅ default_get_data default_get_count 500 fresh
  = (Ok [],
     World tt
       [Call "list_biz_hosts" [] (<["page" := page 0 1]> ∅)]
       [(LoggerRoot,
         CountRequestError "/v2/cc/list_biz_hosts/" failed_reply)]).
Proof.
  apply (probe_failure_returns_empty [] refusing ∅ default_get_data
           default_get_count 500 fresh
           (World tt [Call "list_biz_hosts" [] (<["page" := page 0 1]> ∅)] [])
           failed_reply (PBool false)).
  - reflexivity.
  - reflexivity.
  - reflexivity.
Defined.

Lemma length_concat_sum {A} (ls : list (list A)) :
  length (concat ls) = sum_list_with length ls.
Proof.
  induction ls as [|l ls IH]; simpl; [done|].
  by rewrite length_app, IH.
Qed.

Section Merge.
Context {B : Type}.
Implicit Types (w : world B) (data : list pyval).

(** A page whose response is truthy and yields items extends the
    data; when every page is such, the loop returns them appended in
    the order of the list. *)
Lemma merge_all_truthy (func : adapter B) (get_data : pyval → outcome pyval)
    (tasks : list (gmap string pyval)) futures itemss data w :
  length tasks = length futures →
  Forall2 (λ future items,
             ∃ resp, future = Some (Ok resp) ∧ truthy resp = true
                     ∧ obind (get_data resp) py_iter = Ok items)
    futures itemss →
  merge func get_data (zip tasks futures) data w
  = (Ok (data ++ concat itemss), w).
Proof.
  intros Hlen Hall. revert tasks data Hlen.
  induction Hall as [|future items futures itemss Hhd _ IH];
    intros tasks data Hlen.
  - destruct tasks; simpl; unfold ret; by rewrite app_nil_r.
  - destruct tasks as [|kw tasks]; [discriminate|].
    destruct Hhd as (resp & -> & Htrue & Hitems).
    simpl. unfold bind at 1. simpl. rewrite Htrue. simpl.
    unfold bind at 1. unfold lift. rewrite Hitems.
    rewrite IH by (simpl in Hlen; lia).
    by rewrite <- app_assoc.
Qed.

(** What the loop returns does not depend on the world it runs in. *)
Lemma merge_fst_world (func : adapter B) (get_data : pyval → outcome pyval)
    (l : list (gmap string pyval * option (outcome pyval))) data w1 w2 :
  (merge func get_data l data w1).1 = (merge func get_data l data w2).1.
Proof.
  revert data w1 w2. induction l as [|[kw future] l IH]; intros data w1 w2;
    simpl; [done|].
  apply bind_fst_eq; [by destruct future|].
  intros result w1' w2'. destruct (truthy result); simpl; [|done].
  apply bind_fst_eq; [done|]. intros items ? ?. apply IH.
Qed.
End Merge.

(** C4: when the probe succeeds and every window's response succeeds,
    [batch_request] returns the items [get_data] draws from the
    responses, appended in the order the windows were submitted; there
    are as many of them as the windows hold together. *)
Theorem all_pages_succeed_concat {B : Type} (sched : list nat)
    (func : adapter B) (params : gmap string pyval)
    (get_data get_count : pyval → outcome pyval) (limit count : Z)
    (w w1 w2 : world B) (r flag : pyval) (starts : list Z)
    (futures : list (option (outcome pyval))) (itemss : list (list pyval)) :
  call_with_page func (page 0 1) params w = (Ok r, w1) →
  subscript r "result" = Ok flag →
  truthy flag = true →
  obind (get_count r) as_int = Ok count →
  page_starts (Z.to_nat count) 0 count limit = Some starts →
  pool_join sched func (request_params limit params <$> starts) w1
  = (Ok futures, w2) →
  Forall2 (λ future items,
             ∃ resp ok, future = Some (Ok resp)
                        ∧ subscript resp "result" = Ok ok
                        ∧ truthy ok = true
                        ∧ obind (get_data resp) py_iter = Ok items)
    futures itemss →
  batch_request sched func params get_data get_count limit w
  = (Ok (concat itemss), w2)
  ∧ length itemss = length starts
  ∧ length (concat itemss) = sum_list_with length itemss.
Proof.
  intros Hprobe Hflag Htrue Hcount Hplan Hjoin Hall.
  destruct (pool_run_resolved sched func
              (request_params limit params <$> starts) w1) as (Hlen & _).
  rewrite (pool_join_ok _ _ _ _ _ _ Hjoin), length_fmap in Hlen.
  simpl in Hlen.
  split; [|split].
  - unfold batch_request.
    rewrite (bind_ok _ _ _ _ _ Hprobe), (bind_lift_ok _ _ _ _ Hflag), Htrue.
    simpl. rewrite (bind_lift_ok _ _ _ _ Hcount), Hplan.
    rewrite (bind_ok _ _ _ _ _ Hjoin).
    apply (merge_all_truthy func get_data _ futures itemss []).
    + by rewrite length_fmap.
    + eapply Forall2_impl; [exact Hall|].
      intros future items (resp & ok & -> & Hok & _ & Hitems).
      exists resp. split; [done|]. split; [|done].
      by eapply subscript_truthy.
  - apply Forall2_length in Hall. lia.
  - apply length_concat_sum.
Qed.

Lemma all_pages_succeed_concat_witness :
  (batch_request [2; 0]%nat serving ∅ default_get_data default_get_count
     500 fresh).1
  = Ok [page 0 500; page 500 500; page 1000 500].
Proof.
  refine (f_equal fst (proj1
    (all_pages_succeed_concat [2; 0]%nat serving ∅ default_get_data
       default_get_count 500 1200 fresh _ _ _ (PBool true) [0; 500; 1000] _
       [[page 0 500]; [page 500 500]; [page 1000 500]] _ _ _ _ _ _ _))).
  - reflexivity.
  - reflexivity.
  - reflexivity.
  - reflexivity.
  - reflexivity.
  - reflexivity.
  - repeat constructor; eexists _, (PBool true); repeat split; reflexivity.
Defined.

(** C6: against an adapter that answers as one and the same function of
    its request parameters, two calls of [batch_request] with the same
    arguments return the same, whatever the order the pool ran the page
    requests in and whatever state the two runs started from. *)
Theorem batch_request_deterministic {B : Type} (func : adapter B)
    (f : list pyval → gmap string pyval → outcome pyval)
    (params : gmap string pyval)
    (get_data get_count : pyval → outcome pyval) (limit : Z)
    (sched1 sched2 : list nat) (w1 w2 : world B) :
  (∀ b a k, (run func b a k).1 = f a k) →
  (batch_request sched1 func params get_data get_count limit w1).1
  = (batch_request sched2 func params get_data get_count limit w2).1.
Proof.
  intros Hpure. unfold batch_request. apply bind_fst_eq.
  { unfold call_with_page. destruct (params !! "page"); [done|].
    unfold invoke.
    pose proof (Hpure (backend w1) [] (<["page" := page 0 1]> params)) as H1.
    pose proof (Hpure (backend w2) [] (<["page" := page 0 1]> params)) as H2.
    destruct (run func (backend w1) _ _), (run func (backend w2) _ _).
    simpl in *. congruence. }
  intros r w1' w2'. apply bind_fst_eq; [done|].
  intros flag w1'' w2''. destruct (negb (truthy flag)); [done|].
  apply bind_fst_eq; [done|]. intros count w1''' w2'''.
  destruct (page_starts _ _ _ _) as [starts|]; [|done].
  apply bind_fst_eq.
  { by apply (pool_join_pure _ _ func f). }
  intros futures ? ?. apply merge_fst_world.
Qed.

Lemma batch_request_deterministic_witness :
  (batch_request [2; 0]%nat serving ∅ default_get_data default_get_count
     500 fresh).1
  = (batch_request [1]%nat serving ∅ default_get_data default_get_count
       500 (World tt [Call "search_business" [] ∅] [])).1.
Proof.
  apply (batch_request_deterministic serving (λ _ k, hosts_reply k)).
  intros b a k. reflexivity.
Defined.

Section NoException.
Context {B : Type}.
Implicit Types w : world B.

Lemma merge_returns (func : adapter B) (get_data : pyval → outcome pyval)
    (l : list (gmap string pyval * option (outcome pyval))) data w :
  Forall (λ pf, ∃ v, pf.2 = Some (Ok v)
                     ∧ (truthy v = true →
                        ∃ items, obind (get_data v) py_iter = Ok items)) l →
  ∃ data' w', merge func get_data l data w = (Ok data', w').
Proof.
  intros Hall. revert data w.
  induction Hall as [|[kw future] l (v & Hv & Hitems) _ IH]; intros data w.
  - by exists data, w.
  - simpl in Hv. subst future. simpl. unfold bind at 1. simpl.
    destruct (truthy v) eqn:Htrue; simpl.
    + destruct (Hitems eq_refl) as [items Hi].
      unfold bind at 1, lift. rewrite Hi. apply IH.
    + by eexists _, _.
Qed.

(** A response that is itself falsy ([None], an empty dictionary) is
    what the loop takes for a failed page: it logs the adapter's
    name, the request parameters and the response, and returns the
    empty list. *)
Lemma merge_falsy_response (func : adapter B)
    (get_data : pyval → outcome pyval) (kw : gmap string pyval)
    (resp : pyval) rest data w :
  truthy resp = false →
  merge func get_data ((kw, Some (Ok resp)) :: rest) data w
  = (Ok [],
     World (backend w) (calls w)
       (log w ++ [(LoggerRoot, RequestError (name func) kw resp)])).
Proof. intros H. simpl. unfold bind at 1. simpl. by rewrite H. Qed.
End NoException.

(** C5, as stated, fails: an exception raised by the adapter at the
    probe leaves [batch_request] as it is, with nothing logged. *)
Lemma adapter_exception_propagates :
  batch_request [] unreachable ∅ default_get_data default_get_count 500 fresh
  = (Raise (OtherError "ConnectionError"),
     World tt [Call "list_biz_hosts" [] (<["page" := page 0 1]> ∅)] []).
Proof. reflexivity. Qed.

(** C1: a page response whose success flag is false is a non-empty
    dictionary, which the test [if not result] lets through. With the
    window at 500 refused, [batch_request] does not return the empty
    list and logs nothing: the default extractor is run on the failed
    response, and either its [TypeError] reaches the caller, or, when
    the refusal carries an empty data section, the records of the two
    other windows are returned. *)
Theorem page_failure_not_detected :
  batch_request [] (refusing_one_page failed_reply) ∅ default_get_data
    default_get_count 500 fresh
  = (Raise TypeError,
     World tt
       (Call "list_biz_hosts" [] <$>
          [<["page" := page 0 1]> ∅; request_params 500 ∅ 0;
           request_params 500 ∅ 500; request_params 500 ∅ 1000])
       [])
  ∧ batch_request [] (refusing_one_page failed_empty_reply) ∅ default_get_data
      default_get_count 500 fresh
    = (Ok [page 0 500; page 1000 500],
       World tt
         (Call "list_biz_hosts" [] <$>
            [<["page" := page 0 1]> ∅; request_params 500 ∅ 0;
             request_params 500 ∅ 500; request_params 500 ∅ 1000])
         [])
  ∧ subscript failed_reply "result" = Ok (PBool false)
  ∧ subscript failed_empty_reply "result" = Ok (PBool false).
Proof. repeat split; vm_compute; reflexivity. Qed.

(** C8, as stated, fails: with a ["page"] key in [params] no page
    request carries the caller's value, for none is issued; the probe
    call is given the keyword [page] twice and raises before the
    adapter is entered. *)
Lemma page_key_stops_at_probe :
  batch_request [] serving {[ "page" := page 7 7 ]} default_get_data
    default_get_count 500 fresh
  = (Raise TypeError, fresh)
  ∧ ¬ ∃ c, c ∈ calls (batch_request [] serving {[ "page" := page 7 7 ]}
                       default_get_data default_get_count 500 fresh).2
           ∧ kwds c !! "page" = Some (page 7 7).
Proof.
  split; [reflexivity|].
  intros (c & Hc & _). by apply elem_of_nil in Hc.
Qed.

(** C8, as the code has it: in the request parameters built for a
    window a ["page"] key of [params] takes the place of the planned
    window, and without such a key the request carries its own window;
    but a call whose [params] hold a ["page"] key raises [TypeError] at
    the probe and issues no request at all. *)
Theorem params_page_key {B : Type} (limit start : Z)
    (params : gmap string pyval) :
  (∀ v, params !! "page" = Some v →
        request_params limit params start !! "page" = Some v)
  ∧ (params !! "page" = None →
     request_params limit params start !! "page" = Some (page start limit))
  ∧ (∀ (sched : list nat) (func : adapter B)
       (get_data get_count : pyval → outcome pyval) (w : world B),
       is_Some (params !! "page") →
       batch_request sched func params get_data get_count limit w
       = (Raise TypeError, w)).
Proof.
  split; [|split].
  - intros v Hv. unfold request_params. by apply lookup_union_Some_l.
  - apply request_params_page.
  - intros sched func get_data get_count w [v Hv].
    unfold batch_request, bind, call_with_page. by rewrite Hv.
Qed.

Lemma params_page_key_witness :
  request_params 500 {[ "page" := page 7 7 ]} 1000 !! "page" = Some (page 7 7)
  ∧ request_params 500 {[ "bk_biz_id" := PInt 2 ]} 1000 !! "page"
    = Some (page 1000 500)
  ∧ batch_request [] serving {[ "page" := page 7 7 ]} default_get_data
      default_get_count 500 fresh
    = (Raise TypeError, fresh).
Proof.
  split; [|split].
  - apply (proj1 (@params_page_key unit 500 1000 {[ "page" := page 7 7 ]})).
    reflexivity.
  - apply (proj1 (proj2 (@params_page_key unit 500 1000
                           {[ "bk_biz_id" := PInt 2 ]}))).
    reflexivity.
  - apply (proj2 (proj2 (params_page_key 500 0 {[ "page" := page 7 7 ]}))).
    eexists. reflexivity.
Defined.

(** ** The order on strings *)

Lemma str_le_compare (x y : string) : str_le x y ↔ (x ?= y)%string ≠ Gt.
Proof.
  unfold str_le, String.leb. destruct (x ?= y)%string; simpl; split;
    intros H; done.
Qed.

Lemma str_lt_compare (x y : string) : str_lt x y ↔ (x ?= y)%string = Lt.
Proof.
  unfold str_lt, String.ltb. destruct (x ?= y)%string; simpl; split;
    intros H; done.
Qed.

Lemma str_le_lt_eq (x y : string) : str_le x y ↔ str_lt x y ∨ x = y.
Proof.
  rewrite str_le_compare, str_lt_compare. split.
  - destruct (x ?= y)%string eqn:Hc; intros H; [|by left|done].
    right. by apply String.compare_eq_iff.
  - intros [->| ->]; [done|].
    pose proof (proj2 (String_as_OT.cmp_eq y y) eq_refl) as Hyy.
    unfold String_as_OT.cmp in Hyy. by rewrite Hyy.
Qed.

#[local] Instance str_le_trans : Transitive str_le.
Proof.
  intros x y z. rewrite !str_le_lt_eq, !str_lt_compare.
  intros [Hxy| ->] [Hyz| ->]; auto.
  left. apply String_as_OT.cmp_lt.
  eapply String_as_OT.lt_trans; by apply String_as_OT.cmp_lt.
Qed.

#[local] Instance str_le_total : Total str_le.
Proof.
  intros x y. unfold str_le.
  destruct (String.leb_total x y) as [-> | ->]; [by left|by right].
Qed.

Lemma sorted_strict (l : list string) :
  StronglySorted str_le l → NoDup l → StronglySorted str_lt l.
Proof.
  induction 1 as [|x l Hl IH Hx]; intros Hnd; [constructor|].
  apply NoDup_cons in Hnd as [Hnotin Hnd].
  constructor; [by apply IH|].
  apply Forall_forall. intros y Hy.
  rewrite Forall_forall in Hx.
  destruct (proj1 (str_le_lt_eq x y) (Hx y Hy)) as [?| ->]; done.
Qed.

(** [sorted(set(l))] is in strictly ascending order and has the
    elements of [l]. *)
Lemma sorted_set_spec (l : list string) :
  StronglySorted str_lt (sorted_set l) ∧ ∀ x, x ∈ sorted_set l ↔ x ∈ l.
Proof.
  unfold sorted_set. split.
  - apply sorted_strict.
    + apply (StronglySorted_merge_sort str_le).
    + rewrite (merge_sort_Permutation str_le). apply NoDup_remove_dups.
  - intros x. rewrite (merge_sort_Permutation str_le).
    apply elem_of_remove_dups.
Qed.

(** ** get_notify_receivers *)

Section NotifyReceivers.
Context {B : Type}.
Variable roles : gmap string string.
Variable handle_api_error : string → string → pyval → pyval → string.
Variable not_unique_message : Z → pyval → string.

Lemma extend_receivers_concat (biz_data : pyval) (groups : list pyval)
    (memberss : list (list string)) (receivers : list string) :
  Forall2 (λ group members, role_members roles biz_data group = Ok members)
    groups memberss →
  extend_receivers roles biz_data groups receivers
  = Ok (receivers ++ concat memberss).
Proof.
  intros Hall. revert receivers.
  induction Hall as [|group members groups memberss Hm _ IH];
    intros receivers; simpl.
  - by rewrite app_nil_r.
  - rewrite Hm. simpl. by rewrite IH, app_assoc.
Qed.

(** What [get_notify_receivers] returns once the one business is
    found and every group has its members. *)
Lemma get_notify_receivers_found (client : client B) (biz_cc_id : Z)
    (supplier_account receiver_group : pyval) (more_receiver : string)
    (logger : option logger_id) (w w1 : world B)
    (cc_result flag biz_count biz_data : pyval) (groups : list pyval)
    (memberss : list (list string)) :
  truthy receiver_group = true →
  invoke (search_business client)
    [business_query supplier_account biz_cc_id] ∅ w = (Ok cc_result, w1) →
  subscript cc_result "result" = Ok flag →
  truthy flag = true →
  business_count cc_result = Ok biz_count →
  py_ne_int biz_count 1 = false →
  first_business cc_result = Ok biz_data →
  receiver_groups receiver_group = Ok groups →
  Forall2 (λ group members, role_members roles biz_data group = Ok members)
    groups memberss →
  get_notify_receivers roles handle_api_error not_unique_message client
    biz_cc_id supplier_account receiver_group more_receiver logger w
  = (Ok (reply true "success"
           (PStr (join ","
              (sorted_set
                 (if truthy (PStr more_receiver)
                  then concat memberss ++ (strip <$> split "," more_receiver)
                  else concat memberss))))), w1).
Proof.
  intros Hgroup Hcall Hflag Htrue Hcount Hone Hbiz Hgroups Hmembers.
  unfold get_notify_receivers. rewrite Hgroup. cbn [negb]. cbv zeta.
  rewrite (bind_ok _ _ _ _ _ Hcall), (bind_lift_ok _ _ _ _ Hflag), Htrue.
  cbn [negb].
  rewrite (bind_lift_ok _ _ _ _ Hcount), Hone.
  rewrite (bind_lift_ok _ _ _ _ Hbiz), (bind_lift_ok _ _ _ _ Hgroups).
  rewrite (bind_lift_ok _ _ _ _
             (extend_receivers_concat biz_data groups memberss [] Hmembers)).
  reflexivity.
Qed.
End NotifyReceivers.

(** C9: with a falsy [receiver_group] (the empty string, the empty list,
    [None]) [get_notify_receivers] calls no remote API, logs nothing,
    and returns a success whose data is [more_receiver] split on
    commas, each name stripped, joined again with commas: neither
    sorted nor freed of duplicates. *)
Theorem empty_group_returns_more_receiver {B : Type}
    (roles : gmap string string)
    (handle_api_error : string → string → pyval → pyval → string)
    (not_unique_message : Z → pyval → string)
    (client : client B) (biz_cc_id : Z)
    (supplier_account receiver_group : pyval) (more_receiver : string)
    (logger : option logger_id) (w : world B) :
  truthy receiver_group = false →
  get_notify_receivers roles handle_api_error not_unique_message client
    biz_cc_id supplier_account receiver_group more_receiver logger w
  = (Ok (PDict {[ "result" := PBool true;
                  "message" := PStr "success";
                  "data" := PStr (join "," (strip <$> split "," more_receiver))
               ]}), w)
  ∧ truthy (PStr "") = false ∧ truthy (PList []) = false
  ∧ truthy PNone = false.
Proof.
  intros Hfalsy. unfold get_notify_receivers. rewrite Hfalsy.
  repeat split.
Qed.

Lemma empty_group_returns_more_receiver_witness :
  get_notify_receivers sample_roles sample_error sample_not_unique
    sample_client 2 (PInt 0) (PList []) "tom, amy ,tom" None fresh
  = (Ok (PDict {[ "result" := PBool true;
                  "message" := PStr "success";
                  "data" := PStr "tom,amy,tom" ]}), fresh).
Proof.
  apply (empty_group_returns_more_receiver sample_roles sample_error
           sample_not_unique sample_client 2 (PInt 0) (PList [])
           "tom, amy ,tom" None fresh).
  reflexivity.
Defined.

Example notify_receivers_sample :
  (get_notify_receivers sample_roles sample_error sample_not_unique
     sample_client 2 (PInt 0) (PStr "Maintainers,Developer") " zoe,amy" None
     fresh).1
  = Ok (reply true "success" (PStr "amy,bob,tom,zoe")).
Proof. vm_compute. reflexivity. Qed.

(** ** The host queries *)

Lemma host_kwargs_falsy (bk_biz_id supplier_account host_fields ip_list : pyval) :
  truthy ip_list = false →
  host_kwargs bk_biz_id supplier_account host_fields ip_list
  = host_kwargs bk_biz_id supplier_account host_fields PNone.
Proof. intros H. unfold host_kwargs. by rewrite H. Qed.

Lemma host_kwargs_no_filter (bk_biz_id supplier_account host_fields : pyval) :
  host_kwargs bk_biz_id supplier_account host_fields PNone
    !! "host_property_filter" = None.
Proof. unfold host_kwargs. simpl. by simplify_map_eq. Qed.

(** C10: [get_business_host_topo] and [get_business_host] hand
    [batch_request] the parameters [host_kwargs] builds; these hold the
    key ["host_property_filter"], an AND rule on [bk_host_innerip] with
    [ip_list] as its value, when [ip_list] is truthy, and no such key
    otherwise, so that an empty list makes the same requests as
    [None]. *)
Theorem ip_filter_only_when_truthy {B : Type}
    (get_client_by_user : string → client B) (sched : list nat)
    (username : string)
    (bk_biz_id supplier_account host_fields ip_list : pyval) :
  let kwargs := host_kwargs bk_biz_id supplier_account host_fields ip_list in
  get_business_host get_client_by_user sched username bk_biz_id
    supplier_account host_fields ip_list
  = batch_request sched (list_biz_hosts (get_client_by_user username)) kwargs
      default_get_data default_get_count 500
  ∧ get_business_host_topo get_client_by_user sched username bk_biz_id
      supplier_account host_fields ip_list
    = bind (batch_request sched
              (list_biz_hosts_topo (get_client_by_user username)) kwargs
              default_get_data default_get_count 500)
        (λ result, lift (omapM host_info result))
  ∧ (truthy ip_list = true →
     kwargs !! "host_property_filter"
     = Some (PDict {[ "condition" := PStr "AND";
                      "rules" :=
                        PList [PDict {[ "field" := PStr "bk_host_innerip";
                                        "operator" := PStr "in";
                                        "value" := ip_list ]}] ]}))
  ∧ (truthy ip_list = false →
     kwargs !! "host_property_filter" = None
     ∧ get_business_host get_client_by_user sched username bk_biz_id
         supplier_account host_fields ip_list
       = get_business_host get_client_by_user sched username bk_biz_id
           supplier_account host_fields PNone
     ∧ get_business_host_topo get_client_by_user sched username bk_biz_id
         supplier_account host_fields ip_list
       = get_business_host_topo get_client_by_user sched username bk_biz_id
           supplier_account host_fields PNone)
  ∧ truthy (PList []) = false.
Proof.
  intros kwargs. split; [reflexivity|]. split; [reflexivity|].
  split; [|split; [|reflexivity]].
  - intros Htrue. subst kwargs. unfold host_kwargs. rewrite Htrue.
    by rewrite lookup_insert_eq.
  - intros Hfalsy. subst kwargs. split; [|split].
    + rewrite host_kwargs_falsy by done. apply host_kwargs_no_filter.
    + unfold get_business_host. by rewrite host_kwargs_falsy.
    + unfold get_business_host_topo. by rewrite host_kwargs_falsy.
Qed.

Lemma ip_filter_only_when_truthy_witness :
  host_kwargs (PInt 2) (PInt 0) PNone (PList [PStr "127.0.0.1"])
    !! "host_property_filter"
  = Some (host_property_filter (PList [PStr "127.0.0.1"]))
  ∧ host_kwargs (PInt 2) (PInt 0) PNone (PList []) !! "host_property_filter"
    = None
  ∧ get_business_host (λ _, sample_client) [] "admin" (PInt 2) (PInt 0)
      PNone (PList [])
    = get_business_host (λ _, sample_client) [] "admin" (PInt 2) (PInt 0)
        PNone PNone.
Proof.
  pose proof (ip_filter_only_when_truthy (λ _, sample_client) [] "admin"
                (PInt 2) (PInt 0) PNone (PList [PStr "127.0.0.1"]))
    as (_ & _ & Hfilter & _).
  pose proof (ip_filter_only_when_truthy (λ _, sample_client) [] "admin"
                (PInt 2) (PInt 0) PNone (PList []))
    as (_ & _ & _ & Hnone & _).
  split; [exact (Hfilter eq_refl)|].
  destruct (Hnone eq_refl) as (H1 & H2 & _). by split.
Defined.

Example get_business_host_sample :
  (get_business_host (λ _, sample_client) [1]%nat "admin" (PInt 2) (PInt 0)
     PNone (PList []) fresh).1
  = Ok [page 0 500; page 500 500; page 1000 500].
Proof. vm_compute. reflexivity. Qed.

Example host_info_sample :
  host_info sample_host_topo
  = Ok (PDict {[ "host" := PDict {[ "bk_host_id" := PInt 4 ]};
                 "module" := PList [PDict {[ "bk_module_id" := PInt 2;
                                             "bk_module_name" := PStr "mod" ]}];
                 "set" := PList [PDict {[ "bk_set_id" := PInt 1;
                                          "bk_set_name" := PStr "set" ]}] ]}).
Proof. vm_compute. reflexivity. Qed.

Example host_info_without_topo :
  host_info (PDict {[ "host" := PNone ]}) = Raise KeyError.
Proof. reflexivity. Qed.

(** * Further properties *)

(** ** What a run of the pool asks of the backend *)

Section PoolTrace.
Context {B : Type}.
Implicit Types (w : world B) (tasks : list (gmap string pyval)).

Lemma run_order_permutation (sched : list nat) (n : nat) :
  run_order sched n ≡ₚ seq 0 n.
Proof.
  unfold run_order.
  set (named := remove_dups (filter (λ i, (i < n)%nat) sched)).
  apply NoDup_Permutation.
  - apply NoDup_app. split; [apply NoDup_remove_dups|]. split.
    + intros i Hi Hin. by apply list_elem_of_filter in Hin as [Hnot _].
    + apply NoDup_filter, NoDup_seq.
  - apply NoDup_seq.
  - intros i. split.
    + intros Hi. apply elem_of_app in Hi as [Hi|Hi].
      * apply elem_of_remove_dups, list_elem_of_filter in Hi as [Hlt _].
        apply elem_of_seq. lia.
      * by apply list_elem_of_filter in Hi as [_ Hi].
    + intros Hi. apply elem_of_seq in Hi. apply run_order_covers. lia.
Qed.

Lemma omap_lookup_seq {A C} (g : A → C) (l : list A) (j : nat) (pre : list A) :
  length pre = j →
  omap (λ i, g <$> (pre ++ l) !! i) (seq j (length l)) = g <$> l.
Proof.
  revert j pre. induction l as [|x l IH]; intros j pre Hj; simpl; [done|].
  rewrite lookup_app_r by lia. replace (j - length pre)%nat with O by lia.
  simpl. f_equal.
  specialize (IH (S j) (pre ++ [x])). rewrite <- app_assoc in IH.
  apply IH. rewrite length_app. simpl. lia.
Qed.

Lemma run_tasks_calls (func : adapter B) order tasks futures w :
  calls (run_tasks func order tasks futures w).2
  = calls w ++ omap (λ i, Call (name func) [] <$> tasks !! i) order.
Proof.
  revert futures w. induction order as [|i order IH]; intros futures w;
    simpl; [by rewrite app_nil_r|].
  destruct (tasks !! i) as [kw|]; simpl; [|apply IH].
  pose proof (invoke_calls func [] kw w) as [Hc _].
  destruct (invoke func [] kw w) as [r w']. rewrite IH. simpl in Hc.
  by rewrite Hc, <- app_assoc.
Qed.

(** Whatever the schedule, the pool invokes the adapter once for each
    task, and for nothing else. *)
Lemma pool_run_calls (sched : list nat) (func : adapter B) tasks w :
  ∃ issued,
    calls (pool_run sched func tasks w).2 = calls w ++ issued
    ∧ issued ≡ₚ Call (name func) [] <$> tasks.
Proof.
  unfold pool_run. rewrite run_tasks_calls. eexists. split; [reflexivity|].
  rewrite (run_order_permutation sched (length tasks)).
  pose proof (omap_lookup_seq (Call (name func) []) tasks 0 [] eq_refl) as H.
  simpl in H. by rewrite H.
Qed.

Lemma pool_join_world (sched : list nat) (func : adapter B) tasks w :
  (pool_join sched func tasks w).2 = (pool_run sched func tasks w).2.
Proof.
  unfold pool_join. destruct (pool_run sched func tasks w) as [fs w'].
  by destruct (forallb settled fs).
Qed.

Lemma pool_join_nil (sched : list nat) (func : adapter B) w :
  pool_join sched func [] w = (Ok [], w).
Proof.
  unfold pool_join, pool_run, run_order. simpl.
  replace (filter (λ i, (i < 0)%nat) sched) with (@nil nat); [done|].
  symmetry. induction sched as [|i sched IH]; [done|].
  rewrite filter_cons. destruct (decide (i < 0)%nat); [lia|done].
Qed.

(** One round of the merge loop. *)
Lemma merge_cons (func : adapter B) (get_data : pyval → outcome pyval)
    (kw : gmap string pyval) (future : option (outcome pyval))
    (l : list (gmap string pyval * option (outcome pyval)))
    (data : list pyval) w :
  merge func get_data ((kw, future) :: l) data w
  = match future with
    | Some (Ok resp) =>
        if truthy resp then
          match obind (get_data resp) py_iter with
          | Ok items => merge func get_data l (data ++ items) w
          | Raise e => (Raise e, w)
          | Diverge => (Diverge, w)
          end
        else (Ok [],
              World (backend w) (calls w)
                (log w ++ [(LoggerRoot, RequestError (name func) kw resp)]))
    | Some (Raise e) => (Raise e, w)
    | Some Diverge | None => (Diverge, w)
    end.
Proof.
  destruct future as [[resp|e|]|]; try reflexivity.
  simpl. unfold bind at 1. simpl. destruct (truthy resp); simpl; [|done].
  unfold bind at 1, lift. by destruct (obind (get_data resp) py_iter).
Qed.

(** The merge loop asks nothing of the backend, and writes a log line
    only when it gives up with the empty list. *)
Lemma merge_world (func : adapter B) (get_data : pyval → outcome pyval)
    (l : list (gmap string pyval * option (outcome pyval)))
    (data : list pyval) w :
  backend (merge func get_data l data w).2 = backend w
  ∧ calls (merge func get_data l data w).2 = calls w
  ∧ (log (merge func get_data l data w).2 = log w
     ∨ (merge func get_data l data w).1 = Ok []
       ∧ ∃ kw resp, (kw, Some (Ok resp)) ∈ l ∧ truthy resp = false
           ∧ log (merge func get_data l data w).2
             = log w ++ [(LoggerRoot, RequestError (name func) kw resp)]).
Proof.
  revert data. induction l as [|[kw future] l IH]; intros data.
  - simpl. auto.
  - rewrite merge_cons.
    destruct future as [[resp|e|]|]; simpl; auto.
    destruct (truthy resp) eqn:Htrue; simpl.
    + destruct (obind (get_data resp) py_iter) as [items|e|]; simpl; auto.
      destruct (IH (data ++ items))
        as (Hb & Hc & [Hl|(Ho & kw' & r' & Hin & Hf & Hl)]).
      * split; [done|]. split; [done|]. by left.
      * split; [done|]. split; [done|]. right. split; [done|].
        exists kw', r'. split; [by right|]. done.
    + split; [done|]. split; [done|]. right. split; [done|].
      exists kw, resp. split; [by left|]. done.
Qed.
End PoolTrace.

(** ** batch_request, step by step *)

Section BatchRequestFacts.
Context {B : Type}.
Implicit Types w : world B.

Lemma batch_request_unfold (sched : list nat) (func : adapter B)
    (params : gmap string pyval)
    (get_data get_count : pyval → outcome pyval) (limit : Z) w :
  batch_request sched func params get_data get_count limit w
  = match params !! "page" with
    | Some _ => (Raise TypeError, w)
    | None =>
        match invoke func [] (<["page" := page 0 1]> params) w with
        | (Ok result, w1) =>
            match subscript result "result" with
            | Ok flag =>
                if truthy flag then
                  match obind (get_count result) as_int with
                  | Ok count =>
                      match page_starts (Z.to_nat count) 0 count limit with
                      | Some starts =>
                          let tasks := request_params limit params <$> starts in
                          match pool_join sched func tasks w1 with
                          | (Ok futures, w2) =>
                              merge func get_data (zip tasks futures) [] w2
                          | (Raise e, w2) => (Raise e, w2)
                          | (Diverge, w2) => (Diverge, w2)
                          end
                      | None => (Diverge, w1)
                      end
                  | Raise e => (Raise e, w1)
                  | Diverge => (Diverge, w1)
                  end
                else
                  (Ok [],
                   World (backend w1) (calls w1)
                     (log w1
                      ++ [(LoggerRoot, CountRequestError (path func) result)]))
            | Raise e => (Raise e, w1)
            | Diverge => (Diverge, w1)
            end
        | (Raise e, w1) => (Raise e, w1)
        | (Diverge, w1) => (Diverge, w1)
        end
    end.
Proof.
  unfold batch_request, call_with_page, bind at 1.
  destruct (params !! "page"); [done|].
  destruct (invoke func [] _ w) as [[result|e|] w1]; try done.
  unfold bind at 1, lift.
  destruct (subscript result "result") as [flag|e|]; try done.
  destruct (truthy flag); simpl; [|done].
  unfold bind at 1.
  destruct (obind (get_count result) as_int) as [count|e|]; try done.
  destruct (page_starts _ _ _ _) as [starts|]; [|done].
  reflexivity.
Qed.

Lemma request_params_insert (limit start : Z) (params : gmap string pyval) :
  params !! "page" = None →
  request_params limit params start = <["page" := page start limit]> params.
Proof.
  intros Hp. unfold request_params. apply map_eq. intros k.
  destruct (decide (k = "page")) as [->|Hne].
  - rewrite lookup_insert_eq, lookup_union_r by done.
    apply lookup_singleton_eq.
  - rewrite lookup_insert_ne by done.
    rewrite lookup_union_l; [done|]. by rewrite lookup_singleton_ne.
Qed.

(** The calls of a run: none when [params] holds a ["page"] key;
    otherwise the probe, and then one call for each window of some
    list of starts. *)
Lemma batch_request_calls (sched : list nat) (func : adapter B)
    (params : gmap string pyval)
    (get_data get_count : pyval → outcome pyval) (limit : Z) w :
  (is_Some (params !! "page") →
   calls (batch_request sched func params get_data get_count limit w).2
   = calls w)
  ∧ (params !! "page" = None →
     ∃ starts issued,
       calls (batch_request sched func params get_data get_count limit w).2
       = calls w
         ++ Call (name func) [] (<["page" := page 0 1]> params) :: issued
       ∧ issued ≡ₚ (λ start, Call (name func) []
                               (<["page" := page start limit]> params))
                    <$> starts).
Proof.
  rewrite batch_request_unfold. split.
  { intros [v ->]. done. }
  intros Hp. rewrite Hp.
  pose proof (invoke_calls func [] (<["page" := page 0 1]> params) w)
    as [Hcalls _].
  destruct (invoke func [] _ w) as [[result|e|] w1]; simpl in Hcalls;
    [|by exists [], []..].
  destruct (subscript result "result") as [flag|e|]; [|by exists [], []..].
  destruct (truthy flag); [|by exists [], []].
  destruct (obind (get_count result) as_int) as [count|e|];
    [|by exists [], []..].
  destruct (page_starts _ _ _ _) as [starts|]; [|by exists [], []].
  cbv zeta. set (tasks := request_params limit params <$> starts).
  destruct (pool_run_calls sched func tasks w1) as (issued & Hrun & Hperm).
  exists starts, issued. split.
  - pose proof (pool_join_world sched func tasks w1) as Hw.
    destruct (pool_join sched func tasks w1) as [[futures|e|] w2];
      simpl in Hw; subst w2.
    + destruct (merge_world func get_data (zip tasks futures) []
                  (pool_run sched func tasks w1).2) as (_ & -> & _).
      by rewrite Hrun, Hcalls, <- app_assoc.
    + simpl. by rewrite Hrun, Hcalls, <- app_assoc.
    + simpl. by rewrite Hrun, Hcalls, <- app_assoc.
  - rewrite Hperm. unfold tasks. rewrite <- list_fmap_compose.
    erewrite list_fmap_ext; [reflexivity|].
    intros _ start _. simpl. by rewrite request_params_insert.
Qed.

(** While the responses are truthy and yield items, the merge loop
    goes on with the items appended. *)
Lemma merge_truthy_prefix (func : adapter B)
    (get_data : pyval → outcome pyval)
    (tasks : list (gmap string pyval)) futures itemss
    (l : list (gmap string pyval * option (outcome pyval))) data w :
  length tasks = length futures →
  Forall2 (λ future items,
             ∃ resp, future = Some (Ok resp) ∧ truthy resp = true
                     ∧ obind (get_data resp) py_iter = Ok items)
    futures itemss →
  merge func get_data (zip tasks futures ++ l) data w
  = merge func get_data l (data ++ concat itemss) w.
Proof.
  intros Hlen Hall. revert tasks data Hlen.
  induction Hall as [|future items futures itemss Hhd _ IH];
    intros tasks data Hlen.
  - destruct tasks; simpl; by rewrite app_nil_r.
  - destruct tasks as [|kw tasks]; [discriminate|].
    destruct Hhd as (resp & -> & Htrue & Hitems).
    change (zip (kw :: tasks) (Some (Ok resp) :: futures) ++ l)
      with ((kw, Some (Ok resp)) :: (zip tasks futures ++ l)).
    rewrite merge_cons, Htrue, Hitems.
    rewrite IH by (simpl in Hlen; lia). simpl.
    by rewrite <- app_assoc.
Qed.
End BatchRequestFacts.

(** X1: when the probe succeeds and reports no records (a count of zero
    or less), [batch_request] returns the empty list in the world the
    probe left: one call, no page request, no log line, whatever
    [limit] is. *)
Theorem no_records_probe_only {B : Type} (sched : list nat)
    (func : adapter B) (params : gmap string pyval)
    (get_data get_count : pyval → outcome pyval) (limit count : Z)
    (w w1 : world B) (r flag : pyval) :
  call_with_page func (page 0 1) params w = (Ok r, w1) →
  subscript r "result" = Ok flag →
  truthy flag = true →
  obind (get_count r) as_int = Ok count →
  count ≤ 0 →
  batch_request sched func params get_data get_count limit w = (Ok [], w1).
Proof.
  intros Hprobe Hflag Htrue Hcount Hle. unfold batch_request.
  rewrite (bind_ok _ _ _ _ _ Hprobe), (bind_lift_ok _ _ _ _ Hflag), Htrue.
  simpl. rewrite (bind_lift_ok _ _ _ _ Hcount).
  replace (page_starts (Z.to_nat count) 0 count limit) with (Some (@nil Z)).
  - simpl. by rewrite (bind_ok _ _ _ _ _ (pool_join_nil sched func w1)).
  - destruct (Z.to_nat count); simpl;
      by destruct (Z.ltb_spec 0 count); [lia|].
Qed.

(** X2: once the probe has succeeded and the plan is made,
    [batch_request] calls the adapter once for every planned window and
    for nothing else, whatever the pool's order and whatever the pages
    answer: a page that fails does not keep the others from being
    requested. *)
Theorem every_window_requested_once {B : Type} (sched : list nat)
    (func : adapter B) (params : gmap string pyval)
    (get_data get_count : pyval → outcome pyval) (limit count : Z)
    (w w1 : world B) (r flag : pyval) (starts : list Z) :
  call_with_page func (page 0 1) params w = (Ok r, w1) →
  subscript r "result" = Ok flag →
  truthy flag = true →
  obind (get_count r) as_int = Ok count →
  page_starts (Z.to_nat count) 0 count limit = Some starts →
  ∃ issued,
    calls (batch_request sched func params get_data get_count limit w).2
    = calls w ++ Call (name func) [] (<["page" := page 0 1]> params) :: issued
    ∧ issued ≡ₚ (λ start, Call (name func) []
                            (<["page" := page start limit]> params)) <$> starts
    ∧ length issued = length starts.
Proof.
  intros Hprobe Hflag Htrue Hcount Hplan.
  destruct (call_with_page_ok _ _ _ _ _ _ Hprobe) as (Hp & Hcalls & _).
  set (tasks := request_params limit params <$> starts).
  destruct (pool_run_calls sched func tasks w1) as (issued & Hrun & Hperm).
  assert (Call (name func) [] <$> tasks
          = (λ start, Call (name func) []
                        (<["page" := page start limit]> params)) <$> starts)
    as Htasks.
  { unfold tasks. rewrite <- list_fmap_compose. apply list_fmap_ext.
    intros _ start _. simpl. by rewrite request_params_insert. }
  exists issued. split; [|split].
  - unfold batch_request.
    rewrite (bind_ok _ _ _ _ _ Hprobe), (bind_lift_ok _ _ _ _ Hflag), Htrue.
    simpl. rewrite (bind_lift_ok _ _ _ _ Hcount), Hplan. fold tasks.
    unfold bind.
    pose proof (pool_join_world sched func tasks w1) as Hw.
    destruct (pool_join sched func tasks w1) as [[futures|e|] w2];
      simpl in Hw; subst w2.
    + destruct (merge_world func get_data (zip tasks futures) []
                  (pool_run sched func tasks w1).2) as (_ & -> & _).
      by rewrite Hrun, Hcalls, <- app_assoc.
    + simpl. by rewrite Hrun, Hcalls, <- app_assoc.
    + simpl. by rewrite Hrun, Hcalls, <- app_assoc.
  - by rewrite Hperm, Htasks.
  - by rewrite Hperm, Htasks, length_fmap.
Qed.

(** X3: [batch_request] writes at most one log line, on the root
    logger, and only when it returns the empty list: a result with
    records in it, an exception and a call that does not return all
    leave the log as it was. *)
Theorem log_line_only_with_empty_result {B : Type} (sched : list nat)
    (func : adapter B) (params : gmap string pyval)
    (get_data get_count : pyval → outcome pyval) (limit : Z) (w : world B) :
  log (batch_request sched func params get_data get_count limit w).2 = log w
  ∨ (batch_request sched func params get_data get_count limit w).1 = Ok []
    ∧ ∃ entry,
        log (batch_request sched func params get_data get_count limit w).2
        = log w ++ [(LoggerRoot, entry)].
Proof.
  rewrite batch_request_unfold.
  destruct (params !! "page"); [by left|].
  pose proof (invoke_calls func [] (<["page" := page 0 1]> params) w)
    as [_ Hlog1].
  destruct (invoke func [] _ w) as [[result|e|] w1]; simpl in Hlog1;
    [|by left..].
  destruct (subscript result "result") as [flag|e|]; [|by left..].
  destruct (truthy flag).
  - destruct (obind (get_count result) as_int) as [count|e|]; [|by left..].
    destruct (page_starts _ _ _ _) as [starts|]; [|by left].
    cbv zeta. set (tasks := request_params limit params <$> starts).
    pose proof (pool_join_world sched func tasks w1) as Hw.
    destruct (pool_run_resolved sched func tasks w1) as (_ & Hlog2 & _).
    destruct (pool_join sched func tasks w1) as [[futures|e|] w2];
      simpl in Hw; subst w2;
      [|left; by rewrite <- Hlog1, <- Hlog2..].
    destruct (merge_world func get_data (zip tasks futures) []
                (pool_run sched func tasks w1).2)
      as (_ & _ & [Hl|(Ho & kw & resp & _ & _ & Hl)]).
    + left. by rewrite Hl, Hlog2.
    + right. split; [done|]. eexists. by rewrite Hl, Hlog2, Hlog1.
  - right. split; [done|]. eexists. simpl. by rewrite Hlog1.
Qed.

(** X4: with a positive count and a [limit] of zero or less,
    [batch_request] does not return: [start] never reaches [count],
    however long the loop runs. *)
Theorem nonpositive_limit_never_returns {B : Type} (sched : list nat)
    (func : adapter B) (params : gmap string pyval)
    (get_data get_count : pyval → outcome pyval) (limit count : Z)
    (w w1 : world B) (r flag : pyval) :
  call_with_page func (page 0 1) params w = (Ok r, w1) →
  subscript r "result" = Ok flag →
  truthy flag = true →
  obind (get_count r) as_int = Ok count →
  0 < count → limit ≤ 0 →
  (∀ fuel, page_starts fuel 0 count limit = None)
  ∧ batch_request sched func params get_data get_count limit w
    = (Diverge, w1).
Proof.
  intros Hprobe Hflag Htrue Hcount Hpos Hlimit.
  split; [intros fuel; by apply page_starts_spins|].
  unfold batch_request.
  rewrite (bind_ok _ _ _ _ _ Hprobe), (bind_lift_ok _ _ _ _ Hflag), Htrue.
  simpl. rewrite (bind_lift_ok _ _ _ _ Hcount).
  by rewrite page_starts_spins.
Qed.

(** X5: every call [batch_request] makes of the adapter, the probe
    included, is made with keywords only, and these are the caller's
    [params] with a ["page"] window added: no key of [params] is
    dropped or changed on the way. *)
Theorem every_call_carries_params {B : Type} (sched : list nat)
    (func : adapter B) (params : gmap string pyval)
    (get_data get_count : pyval → outcome pyval) (limit : Z) (w : world B) :
  ∃ issued,
    calls (batch_request sched func params get_data get_count limit w).2
    = calls w ++ issued
    ∧ Forall (λ c, callee c = name func ∧ args c = []
                   ∧ ∃ start size,
                       kwds c = <["page" := page start size]> params)
        issued.
Proof.
  destruct (batch_request_calls sched func params get_data get_count limit w)
    as [Hsome Hnone].
  destruct (params !! "page") as [v|] eqn:Hp.
  - exists []. rewrite app_nil_r. split; [by apply Hsome|constructor].
  - destruct (Hnone eq_refl) as (starts & issued & Hcalls & Hperm).
    eexists. split; [exact Hcalls|].
    constructor; [by repeat split; exists 0, 1|].
    rewrite Hperm. apply Forall_fmap, Forall_forall.
    intros start _. simpl. repeat split. by exists start, limit.
Qed.

Lemma no_records_probe_only_witness :
  batch_request [3; 1]%nat empty_cmdb ∅ default_get_data default_get_count
    500 fresh
  = (Ok [],
     World tt [Call "list_biz_hosts" [] (<["page" := page 0 1]> ∅)] []).
Proof.
  apply (no_records_probe_only [3; 1]%nat empty_cmdb ∅ default_get_data
           default_get_count 500 0 fresh _ (ok_reply 0 []) (PBool true)).
  - reflexivity.
  - reflexivity.
  - reflexivity.
  - reflexivity.
  - lia.
Defined.

Lemma every_window_requested_once_witness :
  ∃ issued,
    calls (batch_request [2; 0]%nat (refusing_one_page failed_reply) ∅
             default_get_data default_get_count 500 fresh).2
    = calls fresh
      ++ Call "list_biz_hosts" [] (<["page" := page 0 1]> ∅) :: issued
    ∧ issued ≡ₚ (λ start, Call "list_biz_hosts" []
                            (<["page" := page start 500]> ∅))
                 <$> [0; 500; 1000]
    ∧ length issued = 3%nat.
Proof.
  apply (every_window_requested_once [2; 0]%nat
           (refusing_one_page failed_reply) ∅ default_get_data
           default_get_count 500 1200 fresh
           (World tt [Call "list_biz_hosts" [] (<["page" := page 0 1]> ∅)] [])
           (ok_reply 1200 [page 0 1]) (PBool true) [0; 500; 1000]).
  - reflexivity.
  - reflexivity.
  - reflexivity.
  - reflexivity.
  - reflexivity.
Defined.

Lemma nonpositive_limit_never_returns_witness :
  (∀ fuel, page_starts fuel 0 1200 0 = None)
  ∧ batch_request [] serving ∅ default_get_data default_get_count 0 fresh
    = (Diverge,
       World tt [Call "list_biz_hosts" [] (<["page" := page 0 1]> ∅)] []).
Proof.
  apply (nonpositive_limit_never_returns [] serving ∅ default_get_data
           default_get_count 0 1200 fresh _ (ok_reply 1200 [page 0 1])
           (PBool true)).
  - reflexivity.
  - reflexivity.
  - reflexivity.
  - reflexivity.
  - lia.
  - lia.
Defined.

(** X6: the first page response that is itself falsy ([None], an empty
    dictionary) ends the merge: [batch_request] returns the empty list,
    the records drawn from the windows before it are dropped, and one
    line is logged with the adapter's name, the request parameters of
    that window and the response. *)
Theorem falsy_page_drops_earlier_records {B : Type} (sched : list nat)
    (func : adapter B) (params : gmap string pyval)
    (get_data get_count : pyval → outcome pyval) (limit count start : Z)
    (w w1 w2 : world B) (r flag resp : pyval) (starts : list Z)
    (earlier later : list (option (outcome pyval)))
    (itemss : list (list pyval)) :
  call_with_page func (page 0 1) params w = (Ok r, w1) →
  subscript r "result" = Ok flag →
  truthy flag = true →
  obind (get_count r) as_int = Ok count →
  page_starts (Z.to_nat count) 0 count limit = Some starts →
  pool_join sched func (request_params limit params <$> starts) w1
  = (Ok (earlier ++ Some (Ok resp) :: later), w2) →
  Forall2 (λ future items,
             ∃ v, future = Some (Ok v) ∧ truthy v = true
                  ∧ obind (get_data v) py_iter = Ok items)
    earlier itemss →
  truthy resp = false →
  starts !! length earlier = Some start →
  batch_request sched func params get_data get_count limit w
  = (Ok [],
     World (backend w2) (calls w2)
       (log w2
        ++ [(LoggerRoot,
             RequestError (name func) (request_params limit params start)
               resp)])).
Proof.
  intros Hprobe Hflag Htrue Hcount Hplan Hjoin Hall Hfalsy Hstart.
  unfold batch_request.
  rewrite (bind_ok _ _ _ _ _ Hprobe), (bind_lift_ok _ _ _ _ Hflag), Htrue.
  simpl. rewrite (bind_lift_ok _ _ _ _ Hcount), Hplan.
  rewrite (bind_ok _ _ _ _ _ Hjoin).
  set (tasks := request_params limit params <$> starts).
  assert (tasks !! length earlier = Some (request_params limit params start))
    as Hkw by (unfold tasks; by rewrite list_lookup_fmap, Hstart).
  rewrite <- (take_drop_middle tasks _ _ Hkw).
  assert (length (take (length earlier) tasks) = length earlier) as Hlen.
  { apply length_take_le. apply lookup_lt_Some in Hkw. lia. }
  rewrite zip_with_app by done.
  rewrite (merge_truthy_prefix func get_data _ earlier itemss) by done.
  cbn [zip_with]. rewrite merge_cons. by rewrite Hfalsy.
Qed.

Lemma falsy_page_drops_earlier_records_witness :
  batch_request [] dropping_one_page ∅ default_get_data default_get_count
    500 fresh
  = (Ok [],
     World tt
       (Call "list_biz_hosts" [] <$>
          [<["page" := page 0 1]> ∅; request_params 500 ∅ 0;
           request_params 500 ∅ 500; request_params 500 ∅ 1000])
       [(LoggerRoot,
         RequestError "list_biz_hosts" (request_params 500 ∅ 500) PNone)]).
Proof.
  refine (eq_trans
    (falsy_page_drops_earlier_records [] dropping_one_page ∅
       default_get_data default_get_count 500 1200 500 fresh
       (World tt [Call "list_biz_hosts" [] (<["page" := page 0 1]> ∅)] [])
       (World tt
          (Call "list_biz_hosts" [] <$>
             [<["page" := page 0 1]> ∅; request_params 500 ∅ 0;
              request_params 500 ∅ 500; request_params 500 ∅ 1000]) [])
       (ok_reply 1200 [page 0 1]) (PBool true) PNone [0; 500; 1000]
       [Some (Ok (ok_reply 1200 [page 0 500]))]
       [Some (Ok (ok_reply 1200 [page 1000 500]))]
       [[page 0 500]] _ _ _ _ _ _ _ _ _) _).
  - reflexivity.
  - reflexivity.
  - reflexivity.
  - reflexivity.
  - reflexivity.
  - vm_compute. reflexivity.
  - repeat constructor. eexists. repeat split; reflexivity.
  - reflexivity.
  - reflexivity.
  - reflexivity.
Defined.

(** ** The host queries, further *)

Lemma host_kwargs_no_page (bk_biz_id supplier_account host_fields ip_list : pyval) :
  host_kwargs bk_biz_id supplier_account host_fields ip_list !! "page" = None.
Proof.
  unfold host_kwargs. destruct (truthy ip_list); by simplify_map_eq.
Qed.

Lemma bind_lift_world {B A C} (m : M B A) (f : A → outcome C) (w : world B) :
  (bind m (λ a, lift (f a)) w).2 = (m w).2.
Proof. unfold bind, lift. by destruct (m w) as [[a|e|] w']. Qed.

(** X7: the parameters both host queries build never hold a ["page"]
    key, so the probe is never stopped by a keyword given twice: the
    first thing either query does is call its own component of the
    client with these parameters and the window of start 0 and
    limit 1, and every later call differs from it in the window
    only. *)
Theorem host_queries_probe_first {B : Type}
    (get_client_by_user : string → client B) (sched : list nat)
    (username : string)
    (bk_biz_id supplier_account host_fields ip_list : pyval) (w : world B) :
  let kwargs := host_kwargs bk_biz_id supplier_account host_fields ip_list in
  let client := get_client_by_user username in
  (∃ starts issued,
     calls (get_business_host get_client_by_user sched username bk_biz_id
              supplier_account host_fields ip_list w).2
     = calls w
       ++ Call (name (list_biz_hosts client)) []
            (<["page" := page 0 1]> kwargs) :: issued
     ∧ issued ≡ₚ (λ start, Call (name (list_biz_hosts client)) []
                             (<["page" := page start 500]> kwargs))
                  <$> starts)
  ∧ (∃ starts issued,
       calls (get_business_host_topo get_client_by_user sched username
                bk_biz_id supplier_account host_fields ip_list w).2
       = calls w
         ++ Call (name (list_biz_hosts_topo client)) []
              (<["page" := page 0 1]> kwargs) :: issued
       ∧ issued ≡ₚ (λ start, Call (name (list_biz_hosts_topo client)) []
                               (<["page" := page start 500]> kwargs))
                    <$> starts).
Proof.
  intros kwargs client. split.
  - unfold get_business_host.
    apply (batch_request_calls sched (list_biz_hosts client) kwargs),
      host_kwargs_no_page.
  - unfold get_business_host_topo. rewrite bind_lift_world.
    apply (batch_request_calls sched (list_biz_hosts_topo client) kwargs),
      host_kwargs_no_page.
Qed.

Section Reshape.
Implicit Types (sets modules : list pyval).

Lemma topo_modules_entries (parent_modules : list pyval)
    (entries : list (pyval * pyval)) modules :
  Forall2 (λ parent_module entry,
             subscript parent_module "bk_module_id" = Ok entry.1
             ∧ subscript parent_module "bk_module_name" = Ok entry.2)
    parent_modules entries →
  topo_modules parent_modules modules
  = Ok (modules
        ++ ((λ m : pyval * pyval, module_entry m.1 m.2) <$> entries)).
Proof.
  intros Hall. revert modules.
  induction Hall as [|pm entry pms entries [Hid Hname] _ IH]; intros modules;
    simpl.
  - by rewrite app_nil_r.
  - rewrite Hid, Hname. simpl. rewrite IH. by rewrite <- app_assoc.
Qed.

Lemma topo_sets_entries (parent_sets : list pyval)
    (entries : list (pyval * pyval * list (pyval * pyval))) sets modules :
  Forall2 (λ parent_set entry,
             subscript parent_set "bk_set_id" = Ok entry.1.1
             ∧ subscript parent_set "bk_set_name" = Ok entry.1.2
             ∧ ∃ parent_modules,
                 obind (subscript parent_set "module") py_iter
                 = Ok parent_modules
                 ∧ Forall2 (λ parent_module m,
                              subscript parent_module "bk_module_id" = Ok m.1
                              ∧ subscript parent_module "bk_module_name"
                                = Ok m.2)
                     parent_modules entry.2)
    parent_sets entries →
  topo_sets parent_sets sets modules
  = Ok (sets ++ (set_of <$> entries),
        modules ++ concat (modules_of <$> entries)).
Proof.
  intros Hall. revert sets modules.
  induction Hall as [|ps entry pss entries (Hid & Hname & pms & Hpms & Hmods)
                       _ IH]; intros sets modules; simpl.
  - by rewrite !app_nil_r.
  - rewrite Hid, Hname. simpl. rewrite Hpms. simpl.
    rewrite (topo_modules_entries pms entry.2 modules Hmods). simpl.
    rewrite IH. by rewrite <- !app_assoc.
Qed.
End Reshape.

(** X8: of a host record whose sets carry an id and a name, and whose
    modules carry an id and a name, [host_info] keeps the host as it
    is, the id and name of every set in the order of the topology, and
    the id and name of every module, those of all sets in one list, set
    after set; every other key of a set or module is left behind. *)
Theorem host_info_flattens_topology (host_topo host : pyval)
    (parent_sets : list pyval)
    (entries : list (pyval * pyval * list (pyval * pyval))) :
  subscript host_topo "host" = Ok host →
  obind (subscript host_topo "topo") py_iter = Ok parent_sets →
  Forall2 (λ parent_set entry,
             subscript parent_set "bk_set_id" = Ok entry.1.1
             ∧ subscript parent_set "bk_set_name" = Ok entry.1.2
             ∧ ∃ parent_modules,
                 obind (subscript parent_set "module") py_iter
                 = Ok parent_modules
                 ∧ Forall2 (λ parent_module m,
                              subscript parent_module "bk_module_id" = Ok m.1
                              ∧ subscript parent_module "bk_module_name"
                                = Ok m.2)
                     parent_modules entry.2)
    parent_sets entries →
  host_info host_topo
  = Ok (PDict
          {[ "host" := host;
             "module" := PList (concat (modules_of <$> entries));
             "set" := PList (set_of <$> entries) ]}).
Proof.
  intros Hhost Htopo Hsets. unfold host_info.
  rewrite Hhost. simpl. rewrite Htopo. simpl.
  by rewrite (topo_sets_entries parent_sets entries [] [] Hsets).
Qed.

Lemma host_info_flattens_topology_witness :
  host_info sample_host_topo
  = Ok (PDict
          {[ "host" := PDict {[ "bk_host_id" := PInt 4 ]};
             "module" := PList [module_entry (PInt 2) (PStr "mod")];
             "set" := PList [set_entry (PInt 1) (PStr "set")] ]}).
Proof.
  refine (eq_trans
    (host_info_flattens_topology sample_host_topo
       (PDict {[ "bk_host_id" := PInt 4 ]}) _
       [(PInt 1, PStr "set", [(PInt 2, PStr "mod")])] _ _ _) _).
  - reflexivity.
  - reflexivity.
  - repeat constructor. eexists. split; [reflexivity|].
    repeat constructor.
  - reflexivity.
Defined.

Lemma omapM_first_failure {A C} (f : A → outcome C) (good : list A) (bad : A)
    (rest : list A) (e : exn) :
  Forall (λ x, ∃ y, f x = Ok y) good →
  f bad = Raise e →
  omapM f (good ++ bad :: rest) = Raise e.
Proof.
  intros Hgood Hbad. induction Hgood as [|x good [y Hy] _ IH]; simpl.
  - by rewrite Hbad.
  - by rewrite Hy, IH.
Qed.

(** X9: [get_business_host_topo] gives no partial list: when the
    records have all been fetched and one of them cannot be reshaped (it
    lacks ["host"] or ["topo"], or a set or module lacks its id or
    name), the exception of the first such record is what the call
    raises, and the hosts reshaped before it are lost. *)
Theorem topo_of_malformed_record_raises {B : Type}
    (get_client_by_user : string → client B) (sched : list nat)
    (username : string)
    (bk_biz_id supplier_account host_fields ip_list : pyval)
    (w w' : world B) (good rest : list pyval) (bad : pyval) (e : exn) :
  batch_request sched (list_biz_hosts_topo (get_client_by_user username))
    (host_kwargs bk_biz_id supplier_account host_fields ip_list)
    default_get_data default_get_count 500 w
  = (Ok (good ++ bad :: rest), w') →
  Forall (λ record, ∃ info, host_info record = Ok info) good →
  host_info bad = Raise e →
  get_business_host_topo get_client_by_user sched username bk_biz_id
    supplier_account host_fields ip_list w
  = (Raise e, w').
Proof.
  intros Hbatch Hgood Hbad. unfold get_business_host_topo.
  rewrite (bind_ok _ _ _ _ _ Hbatch). unfold lift.
  by rewrite (omapM_first_failure host_info good bad rest e).
Qed.

(** ** Splitting, joining and stripping *)

Section StringFacts.
Variable sep : ascii.

Lemma split_nonempty (s : string) : split sep s ≠ [].
Proof.
  destruct s as [|c s]; simpl; [done|].
  destruct (Ascii.eqb c sep); [done|]. by destruct (split sep s).
Qed.

Lemma split_without_sep (s : string) :
  has_char sep s = false → split sep s = [s].
Proof.
  induction s as [|c s IH]; simpl; [done|].
  destruct (Ascii.eqb c sep); simpl; [done|].
  intros H. by rewrite IH.
Qed.

Lemma split_pieces_without_sep (s : string) :
  Forall (λ x, has_char sep x = false) (split sep s).
Proof.
  induction s as [|c s IH]; simpl; [by repeat constructor|].
  destruct (Ascii.eqb c sep) eqn:Hc; [by constructor|].
  destruct (split sep s) as [|h t]; [by repeat constructor; simpl; rewrite Hc|].
  apply Forall_cons in IH as [Hh Ht].
  constructor; [simpl; by rewrite Hc|done].
Qed.

Lemma split_append_sep (x t : string) :
  has_char sep x = false →
  split sep (String.append x (String sep t)) = x :: split sep t.
Proof.
  induction x as [|c x IH]; simpl.
  - intros _. by rewrite Ascii.eqb_refl.
  - destruct (Ascii.eqb c sep); simpl; [done|].
    intros H. by rewrite IH.
Qed.

(** Joining pieces that are free of the separator and splitting the
    result gives the pieces back. *)
Lemma split_join (l : list string) :
  l ≠ [] → Forall (λ x, has_char sep x = false) l →
  split sep (join (String sep EmptyString) l) = l.
Proof.
  intros Hne Hall. induction Hall as [|x l Hx Hl IH]; [done|].
  destruct l as [|y l].
  - simpl. by apply split_without_sep.
  - change (join (String sep "") (x :: y :: l))
      with (String.append x (String sep (join (String sep "") (y :: l)))).
    rewrite split_append_sep by done. f_equal. by apply IH.
Qed.

Lemma lstrip_without_sep (s : string) :
  has_char sep s = false → has_char sep (lstrip s) = false.
Proof.
  induction s as [|c s IH]; simpl; [done|].
  intros H. apply orb_false_iff in H as [Hc Hs].
  destruct (is_space c); [by apply IH|]. simpl. by rewrite Hc, Hs.
Qed.

Lemma rstrip_without_sep (s : string) :
  has_char sep s = false → has_char sep (rstrip s) = false.
Proof.
  induction s as [|c s IH]; simpl; [done|].
  intros H. apply orb_false_iff in H as [Hc Hs]. specialize (IH Hs).
  destruct (rstrip s) as [|c' r].
  - destruct (is_space c); [done|]. simpl. by rewrite Hc.
  - simpl in *. by rewrite Hc, IH.
Qed.

Lemma strip_without_sep (s : string) :
  has_char sep s = false → has_char sep (strip s) = false.
Proof. intros H. by apply rstrip_without_sep, lstrip_without_sep. Qed.
End StringFacts.

Lemma rstrip_rstrip (s : string) : rstrip (rstrip s) = rstrip s.
Proof.
  induction s as [|c s IH]; simpl; [done|].
  destruct (rstrip s) as [|c' r] eqn:Hr.
  - destruct (is_space c) eqn:Hc; simpl; [done|]. by rewrite Hc.
  - change (rstrip (String c (String c' r))) with
      (match rstrip (String c' r) with
       | EmptyString => if is_space c then EmptyString else String c EmptyString
       | r' => String c r'
       end).
    by rewrite IH.
Qed.

Lemma lstrip_rstrip (s : string) :
  lstrip (rstrip (lstrip s)) = rstrip (lstrip s).
Proof.
  induction s as [|c s IH]; simpl; [done|].
  destruct (is_space c) eqn:Hc; [done|].
  simpl. destruct (rstrip s); simpl; rewrite ?Hc; simpl; by rewrite ?Hc.
Qed.

(** Stripping a stripped name changes nothing. *)
Lemma strip_strip (s : string) : strip (strip s) = strip s.
Proof. unfold strip. by rewrite lstrip_rstrip, rstrip_rstrip. Qed.

#[local] Instance str_le_antisym : AntiSymm (=) str_le.
Proof.
  intros x y Hxy Hyx. unfold str_le in *.
  apply String.leb_antisym; by apply Is_true_true.
Qed.

(** [sorted(set(l))] depends on the elements of [l] only, not on their
    order or number. *)
Lemma sorted_set_ext (l1 l2 : list string) :
  (∀ x, x ∈ l1 ↔ x ∈ l2) → sorted_set l1 = sorted_set l2.
Proof.
  intros Hel. unfold sorted_set.
  apply (StronglySorted_unique str_le).
  - apply (StronglySorted_merge_sort str_le).
  - apply (StronglySorted_merge_sort str_le).
  - rewrite !(merge_sort_Permutation str_le).
    apply NoDup_Permutation; [apply NoDup_remove_dups..|].
    intros x. rewrite !elem_of_remove_dups. apply Hel.
Qed.

Lemma topo_of_malformed_record_raises_witness :
  (get_business_host_topo (λ _, half_mapped_client) [] "admin" (PInt 2)
     (PInt 0) PNone PNone fresh).1
  = Raise KeyError.
Proof.
  refine (f_equal fst
    (topo_of_malformed_record_raises (λ _, half_mapped_client) [] "admin"
       (PInt 2) (PInt 0) PNone PNone fresh _ [sample_host_topo] []
       (PDict {[ "host" := PDict {[ "bk_host_id" := PInt 5 ]} ]}) KeyError
       _ _ _)).
  - vm_compute. reflexivity.
  - repeat constructor. eexists. vm_compute. reflexivity.
  - reflexivity.
Defined.

(** ** get_notify_receivers, further *)

Section NotifyFacts.
Context {B : Type}.
Variable roles : gmap string string.
Variable handle_api_error : string → string → pyval → pyval → string.
Variable not_unique_message : Z → pyval → string.
Implicit Types w : world B.

Lemma extend_receivers_first_failure (biz_data : pyval)
    (known rest : list pyval) (group : pyval) (e : exn)
    (receivers : list string) :
  Forall (λ g, ∃ members, role_members roles biz_data g = Ok members) known →
  role_members roles biz_data group = Raise e →
  extend_receivers roles biz_data (known ++ group :: rest) receivers = Raise e.
Proof.
  intros Hknown Hbad. revert receivers.
  induction Hknown as [|g known [members Hm] _ IH]; intros receivers; simpl.
  - by rewrite Hbad.
  - rewrite Hm. simpl. apply IH.
Qed.

Lemma role_members_split (biz_data group : pyval) (members : list string) :
  role_members roles biz_data group = Ok members →
  ∃ s, members = split "," s.
Proof.
  unfold role_members.
  destruct (match group with PStr g => _ | _ => _ end) as [role|e|];
    simpl; [|discriminate..].
  destruct (subscript biz_data role) as [[| | |s| |]|e|]; simpl;
    try discriminate.
  intros [= <-]. by exists s.
Qed.

Lemma receiver_groups_nonempty (receiver_group : pyval) (groups : list pyval) :
  truthy receiver_group = true →
  receiver_groups receiver_group = Ok groups →
  groups ≠ [].
Proof.
  destruct receiver_group as [| | |s|l|d]; simpl; try discriminate.
  - intros _ [= <-]. pose proof (split_nonempty "," s).
    by destruct (split "," s).
  - intros Hl [= <-]. by destruct l.
  - intros Hd [= <-]. by destruct (map_to_list d).
Qed.

(** The members of all groups, as a set. *)
Lemma elem_of_members (biz_data : pyval) (groups : list pyval)
    (memberss : list (list string)) (x : string) :
  Forall2 (λ group members, role_members roles biz_data group = Ok members)
    groups memberss →
  x ∈ concat memberss
  ↔ ∃ group members, group ∈ groups
      ∧ role_members roles biz_data group = Ok members ∧ x ∈ members.
Proof.
  induction 1 as [|g m gs ms Hm _ IH]; simpl.
  - split; [by intros ?%elem_of_nil|]. by intros (? & ? & ?%elem_of_nil & _).
  - rewrite elem_of_app, IH. split.
    + intros [Hx|(g' & m' & Hg' & Hm' & Hx)].
      * exists g, m. split; [by left|done].
      * exists g', m'. split; [by right|done].
    + intros (g' & m' & Hg' & Hm' & Hx).
      apply elem_of_cons in Hg' as [->|Hg'].
      * left. congruence.
      * right. by exists g', m'.
Qed.

Lemma members_of_groups (biz_data : pyval) (groups : list pyval) :
  Forall (λ g, ∃ members, role_members roles biz_data g = Ok members) groups →
  ∃ memberss,
    Forall2 (λ group members, role_members roles biz_data group = Ok members)
      groups memberss.
Proof.
  induction 1 as [|g gs [m Hm] _ [ms IH]].
  - by exists [].
  - exists (m :: ms). by constructor.
Qed.
End NotifyFacts.

(** X10: when the business lookup answers with a false success flag,
    [get_notify_receivers] raises nothing: it returns a failure whose
    message is what [handle_api_error] makes of the request and the
    response and whose data is [None], and logs that message on the
    logger it was given, or on the celery logger when it was given
    none. *)
Theorem lookup_refused_reply {B : Type} (roles : gmap string string)
    (handle_api_error : string → string → pyval → pyval → string)
    (not_unique_message : Z → pyval → string)
    (client : client B) (biz_cc_id : Z)
    (supplier_account receiver_group : pyval) (more_receiver : string)
    (logger : option logger_id) (w w1 : world B) (cc_result flag : pyval) :
  truthy receiver_group = true →
  invoke (search_business client)
    [business_query supplier_account biz_cc_id] ∅ w = (Ok cc_result, w1) →
  subscript cc_result "result" = Ok flag →
  truthy flag = false →
  let message :=
    handle_api_error "CMDB" "cc.search_business"
      (business_query supplier_account biz_cc_id) cc_result in
  get_notify_receivers roles handle_api_error not_unique_message client
    biz_cc_id supplier_account receiver_group more_receiver logger w
  = (Ok (PDict {[ "result" := PBool false;
                  "message" := PStr message;
                  "data" := PNone ]}),
     World (backend w1) (calls w1)
       (log w1
        ++ [(match logger with Some l => l | None => LoggerCelery end,
             Message message)])).
Proof.
  intros Hgroup Hcall Hflag Hfalse message.
  unfold get_notify_receivers. rewrite Hgroup. cbn [negb]. cbv zeta.
  rewrite (bind_ok _ _ _ _ _ Hcall), (bind_lift_ok _ _ _ _ Hflag), Hfalse.
  cbn [negb]. by destruct logger.
Qed.

Lemma lookup_refused_reply_witness :
  get_notify_receivers sample_roles sample_error sample_not_unique
    refused_client 2 (PInt 0) (PStr "Maintainers") "" None fresh
  = (Ok (PDict {[ "result" := PBool false;
                  "message" := PStr "CMDB cc.search_business";
                  "data" := PNone ]}),
     World tt [Call "search_business" [business_query (PInt 0) 2] ∅]
       [(LoggerCelery, Message "CMDB cc.search_business")]).
Proof.
  refine (eq_trans
    (lookup_refused_reply sample_roles sample_error sample_not_unique
       refused_client 2 (PInt 0) (PStr "Maintainers") "" None fresh
       (World tt [Call "search_business" [business_query (PInt 0) 2] ∅] [])
       failed_reply (PBool false) _ _ _ _) _).
  - reflexivity.
  - reflexivity.
  - reflexivity.
  - reflexivity.
  - reflexivity.
Defined.

(** X11: when the lookup succeeds but its count is not 1 (no business,
    several, or a count that is no number), [get_notify_receivers]
    returns a failure with the "not unique" message for the business
    id and the count and with [None] as data; what it logs is not that
    message but the one [handle_api_error] makes. *)
Theorem business_not_unique_reply {B : Type} (roles : gmap string string)
    (handle_api_error : string → string → pyval → pyval → string)
    (not_unique_message : Z → pyval → string)
    (client : client B) (biz_cc_id : Z)
    (supplier_account receiver_group : pyval) (more_receiver : string)
    (logger : option logger_id) (w w1 : world B)
    (cc_result flag biz_count : pyval) :
  truthy receiver_group = true →
  invoke (search_business client)
    [business_query supplier_account biz_cc_id] ∅ w = (Ok cc_result, w1) →
  subscript cc_result "result" = Ok flag →
  truthy flag = true →
  business_count cc_result = Ok biz_count →
  biz_count ≠ PInt 1 → biz_count ≠ PBool true →
  get_notify_receivers roles handle_api_error not_unique_message client
    biz_cc_id supplier_account receiver_group more_receiver logger w
  = (Ok (PDict {[ "result" := PBool false;
                  "message" := PStr (not_unique_message biz_cc_id biz_count);
                  "data" := PNone ]}),
     World (backend w1) (calls w1)
       (log w1
        ++ [(match logger with Some l => l | None => LoggerCelery end,
             Message (handle_api_error "CMDB" "cc.search_business"
                        (business_query supplier_account biz_cc_id)
                        cc_result))])).
Proof.
  intros Hgroup Hcall Hflag Htrue Hcount Hint Hbool.
  assert (py_ne_int biz_count 1 = true) as Hne.
  { destruct biz_count as [|[]|z| | |]; simpl; try done.
    destruct (Z.eqb_spec z 1); [congruence|done]. }
  unfold get_notify_receivers. rewrite Hgroup. cbn [negb]. cbv zeta.
  rewrite (bind_ok _ _ _ _ _ Hcall), (bind_lift_ok _ _ _ _ Hflag), Htrue.
  cbn [negb]. rewrite (bind_lift_ok _ _ _ _ Hcount), Hne.
  by destruct logger.
Qed.

Lemma business_not_unique_reply_witness :
  get_notify_receivers sample_roles sample_error sample_not_unique
    ambiguous_client 2 (PInt 0) (PStr "Maintainers") "" (Some (LoggerHandle 7))
    fresh
  = (Ok (PDict {[ "result" := PBool false;
                  "message" := PStr "business is not unique";
                  "data" := PNone ]}),
     World tt [Call "search_business" [business_query (PInt 0) 2] ∅]
       [(LoggerHandle 7, Message "CMDB cc.search_business")]).
Proof.
  refine (eq_trans
    (business_not_unique_reply sample_roles sample_error sample_not_unique
       ambiguous_client 2 (PInt 0) (PStr "Maintainers") ""
       (Some (LoggerHandle 7)) fresh
       (World tt [Call "search_business" [business_query (PInt 0) 2] ∅] [])
       (ok_reply 2 [sample_business; sample_business]) (PBool true) (PInt 2)
       _ _ _ _ _ _ _) _).
  - reflexivity.
  - reflexivity.
  - reflexivity.
  - reflexivity.
  - reflexivity.
  - discriminate.
  - discriminate.
  - reflexivity.
Defined.

(** X12: a group that the role table does not know is not reported as
    a failure: once the business is found, the first such group makes
    [get_notify_receivers] raise [KeyError], after the lookup call and
    with nothing logged. *)
Theorem unknown_group_raises_key_error {B : Type} (roles : gmap string string)
    (handle_api_error : string → string → pyval → pyval → string)
    (not_unique_message : Z → pyval → string)
    (client : client B) (biz_cc_id : Z)
    (supplier_account receiver_group : pyval) (more_receiver : string)
    (logger : option logger_id) (w w1 : world B)
    (cc_result flag biz_count biz_data : pyval) (known rest : list pyval)
    (group : string) :
  truthy receiver_group = true →
  invoke (search_business client)
    [business_query supplier_account biz_cc_id] ∅ w = (Ok cc_result, w1) →
  subscript cc_result "result" = Ok flag →
  truthy flag = true →
  business_count cc_result = Ok biz_count →
  py_ne_int biz_count 1 = false →
  first_business cc_result = Ok biz_data →
  receiver_groups receiver_group = Ok (known ++ PStr group :: rest) →
  Forall (λ g, ∃ members, role_members roles biz_data g = Ok members) known →
  roles !! group = None →
  get_notify_receivers roles handle_api_error not_unique_message client
    biz_cc_id supplier_account receiver_group more_receiver logger w
  = (Raise KeyError, w1).
Proof.
  intros Hgroup Hcall Hflag Htrue Hcount Hone Hbiz Hgroups Hknown Hunknown.
  unfold get_notify_receivers. rewrite Hgroup. cbn [negb]. cbv zeta.
  rewrite (bind_ok _ _ _ _ _ Hcall), (bind_lift_ok _ _ _ _ Hflag), Htrue.
  cbn [negb]. rewrite (bind_lift_ok _ _ _ _ Hcount), Hone.
  rewrite (bind_lift_ok _ _ _ _ Hbiz), (bind_lift_ok _ _ _ _ Hgroups).
  unfold bind, lift.
  rewrite (extend_receivers_first_failure roles biz_data known rest
             (PStr group) KeyError); [done|done|].
  unfold role_members. by rewrite Hunknown.
Qed.

Lemma unknown_group_raises_key_error_witness :
  get_notify_receivers sample_roles sample_error sample_not_unique
    sample_client 2 (PInt 0) (PStr "Maintainers,Tester") "amy" None fresh
  = (Raise KeyError,
     World tt [Call "search_business" [business_query (PInt 0) 2] ∅] []).
Proof.
  apply (unknown_group_raises_key_error sample_roles sample_error
           sample_not_unique sample_client 2 (PInt 0)
           (PStr "Maintainers,Tester") "amy" None fresh _
           (ok_reply 1 [sample_business]) (PBool true) (PInt 1)
           sample_business [PStr "Maintainers"] [] "Tester").
  - reflexivity.
  - reflexivity.
  - reflexivity.
  - reflexivity.
  - reflexivity.
  - reflexivity.
  - reflexivity.
  - reflexivity.
  - repeat constructor. eexists. reflexivity.
  - reflexivity.
Defined.

(** X13: a [receiver_group] given as a non-empty string is the same as
    the list of its comma-separated pieces: both calls do the same and
    return the same. *)
Theorem group_string_same_as_list {B : Type} (roles : gmap string string)
    (handle_api_error : string → string → pyval → pyval → string)
    (not_unique_message : Z → pyval → string)
    (client : client B) (biz_cc_id : Z) (supplier_account : pyval)
    (groups more_receiver : string) (logger : option logger_id)
    (w : world B) :
  groups ≠ "" →
  get_notify_receivers roles handle_api_error not_unique_message client
    biz_cc_id supplier_account (PStr groups) more_receiver logger w
  = get_notify_receivers roles handle_api_error not_unique_message client
      biz_cc_id supplier_account (PList (PStr <$> split "," groups))
      more_receiver logger w.
Proof.
  intros Hne. unfold get_notify_receivers.
  assert (truthy (PStr groups) = true) as -> by by destruct groups.
  assert (truthy (PList (PStr <$> split "," groups)) = true) as ->.
  { simpl. pose proof (split_nonempty "," groups).
    by destruct (split "," groups). }
  reflexivity.
Qed.

Lemma group_string_same_as_list_witness :
  get_notify_receivers sample_roles sample_error sample_not_unique
    sample_client 2 (PInt 0) (PStr "Maintainers,Developer") "" None fresh
  = get_notify_receivers sample_roles sample_error sample_not_unique
      sample_client 2 (PInt 0) (PList [PStr "Maintainers"; PStr "Developer"])
      "" None fresh.
Proof.
  apply (group_string_same_as_list sample_roles sample_error
           sample_not_unique sample_client 2 (PInt 0)
           "Maintainers,Developer" "" None fresh).
  discriminate.
Defined.

(** X14: the reply does not depend on the order of the requested
    groups, nor on a group being requested twice: two group lists with
    the same elements, each group with its members in the role table,
    get the same reply. *)
Theorem group_order_is_irrelevant {B : Type} (roles : gmap string string)
    (handle_api_error : string → string → pyval → pyval → string)
    (not_unique_message : Z → pyval → string)
    (client : client B) (biz_cc_id : Z) (supplier_account : pyval)
    (groups1 groups2 : list pyval) (more_receiver : string)
    (logger : option logger_id) (w w1 : world B)
    (cc_result flag biz_count biz_data : pyval) :
  invoke (search_business client)
    [business_query supplier_account biz_cc_id] ∅ w = (Ok cc_result, w1) →
  subscript cc_result "result" = Ok flag →
  truthy flag = true →
  business_count cc_result = Ok biz_count →
  py_ne_int biz_count 1 = false →
  first_business cc_result = Ok biz_data →
  groups1 ≠ [] →
  Forall (λ g, ∃ members, role_members roles biz_data g = Ok members)
    groups1 →
  (∀ g, g ∈ groups1 ↔ g ∈ groups2) →
  get_notify_receivers roles handle_api_error not_unique_message client
    biz_cc_id supplier_account (PList groups1) more_receiver logger w
  = get_notify_receivers roles handle_api_error not_unique_message client
      biz_cc_id supplier_account (PList groups2) more_receiver logger w.
Proof.
  intros Hcall Hflag Htrue Hcount Hone Hbiz Hne Hall Hsame.
  assert (Forall (λ g, ∃ members, role_members roles biz_data g = Ok members)
            groups2) as Hall2.
  { apply Forall_forall. intros g Hg. apply Hsame in Hg.
    by apply (proj1 (Forall_forall _ _) Hall). }
  destruct (members_of_groups roles biz_data groups1 Hall) as [ms1 Hms1].
  destruct (members_of_groups roles biz_data groups2 Hall2) as [ms2 Hms2].
  assert (groups2 ≠ []) as Hne2.
  { destruct groups1 as [|g gs]; [done|]. intros Hnil.
    assert (g ∈ groups2) as Hg by (apply Hsame; by left).
    rewrite Hnil in Hg. by apply elem_of_nil in Hg. }
  rewrite (get_notify_receivers_found roles handle_api_error
             not_unique_message client biz_cc_id supplier_account
             (PList groups1) more_receiver logger w w1 cc_result flag
             biz_count biz_data groups1 ms1); try done;
    [|by destruct groups1].
  rewrite (get_notify_receivers_found roles handle_api_error
             not_unique_message client biz_cc_id supplier_account
             (PList groups2) more_receiver logger w w1 cc_result flag
             biz_count biz_data groups2 ms2); try done;
    [|by destruct groups2].
  assert (∀ x, x ∈ concat ms1 ↔ x ∈ concat ms2) as Hel.
  { intros x. rewrite (elem_of_members roles biz_data groups1 ms1 x Hms1).
    rewrite (elem_of_members roles biz_data groups2 ms2 x Hms2).
    split; intros (g & m & Hg & Hm & Hx); exists g, m;
      (split; [by apply Hsame|done]). }
  replace (sorted_set
             (if truthy (PStr more_receiver)
              then concat ms1 ++ (strip <$> split "," more_receiver)
              else concat ms1))
    with (sorted_set
            (if truthy (PStr more_receiver)
             then concat ms2 ++ (strip <$> split "," more_receiver)
             else concat ms2)); [done|].
  destruct (truthy (PStr more_receiver)).
  - apply sorted_set_ext. intros x. by rewrite !elem_of_app, Hel.
  - apply sorted_set_ext. intros x. by rewrite Hel.
Qed.

Lemma group_order_is_irrelevant_witness :
  get_notify_receivers sample_roles sample_error sample_not_unique
    sample_client 2 (PInt 0) (PList [PStr "Maintainers"; PStr "Developer"])
    "zoe" None fresh
  = get_notify_receivers sample_roles sample_error sample_not_unique
      sample_client 2 (PInt 0)
      (PList [PStr "Developer"; PStr "Maintainers"; PStr "Developer"])
      "zoe" None fresh.
Proof.
  apply (group_order_is_irrelevant sample_roles sample_error
           sample_not_unique sample_client 2 (PInt 0)
           [PStr "Maintainers"; PStr "Developer"]
           [PStr "Developer"; PStr "Maintainers"; PStr "Developer"]
           "zoe" None fresh
           (World tt [Call "search_business" [business_query (PInt 0) 2] ∅] [])
           (ok_reply 1 [sample_business]) (PBool true) (PInt 1)
           sample_business).
  - reflexivity.
  - reflexivity.
  - reflexivity.
  - reflexivity.
  - reflexivity.
  - reflexivity.
  - discriminate.
  - repeat constructor; eexists; reflexivity.
  - intros g. rewrite !elem_of_cons, !elem_of_nil. tauto.
Defined.

(** X15: on success the data of the reply can be taken apart again:
    split on commas it gives names in strictly ascending order, each
    once, and these are exactly the members of the requested groups
    and, for a non-empty [more_receiver], its stripped names. *)
Theorem notified_names_split_back {B : Type} (roles : gmap string string)
    (handle_api_error : string → string → pyval → pyval → string)
    (not_unique_message : Z → pyval → string)
    (client : client B) (biz_cc_id : Z)
    (supplier_account receiver_group : pyval) (more_receiver : string)
    (logger : option logger_id) (w w1 : world B)
    (cc_result flag biz_count biz_data : pyval) (groups : list pyval)
    (memberss : list (list string)) :
  truthy receiver_group = true →
  invoke (search_business client)
    [business_query supplier_account biz_cc_id] ∅ w = (Ok cc_result, w1) →
  subscript cc_result "result" = Ok flag →
  truthy flag = true →
  business_count cc_result = Ok biz_count →
  py_ne_int biz_count 1 = false →
  first_business cc_result = Ok biz_data →
  receiver_groups receiver_group = Ok groups →
  Forall2 (λ group members, role_members roles biz_data group = Ok members)
    groups memberss →
  ∃ data : string,
    get_notify_receivers roles handle_api_error not_unique_message client
      biz_cc_id supplier_account receiver_group more_receiver logger w
    = (Ok (PDict {[ "result" := PBool true;
                    "message" := PStr "success";
                    "data" := PStr data ]}), w1)
    ∧ StronglySorted str_lt (split "," data)
    ∧ ∀ x, x ∈ split "," data ↔
           x ∈ concat memberss
           ∨ (more_receiver ≠ "" ∧ x ∈ strip <$> split "," more_receiver).
Proof.
  intros Hgroup Hcall Hflag Htrue Hcount Hone Hbiz Hgroups Hmembers.
  set (receivers :=
         if truthy (PStr more_receiver)
         then concat memberss ++ (strip <$> split "," more_receiver)
         else concat memberss).
  assert (∀ x, x ∈ receivers ↔
               x ∈ concat memberss
               ∨ (more_receiver ≠ "" ∧ x ∈ strip <$> split "," more_receiver))
    as Hel.
  { intros x. unfold receivers.
    destruct more_receiver as [|c s]; cbn [truthy String.eqb negb].
    - split; [by left|]. by intros [?|[? _]].
    - rewrite elem_of_app. split.
      + intros [?|?]; [by left|by right].
      + intros [?|[_ ?]]; [by left|by right]. }
  assert (Forall (λ x, has_char "," x = false) (concat memberss)) as Hfree.
  { apply Forall_concat. eapply Forall2_Forall_r; [exact Hmembers|].
    apply Forall_forall. intros g _ members Hm.
    destruct (role_members_split roles biz_data g members Hm) as [s ->].
    apply split_pieces_without_sep. }
  assert (Forall (λ x, has_char "," x = false) receivers) as Hfree'.
  { unfold receivers. destruct (truthy (PStr more_receiver)); [|done].
    apply Forall_app. split; [done|]. apply Forall_fmap.
    eapply Forall_impl; [apply (split_pieces_without_sep ",")|].
    intros x Hx. by apply strip_without_sep. }
  assert (∃ x, x ∈ concat memberss) as [x0 Hx0].
  { pose proof (receiver_groups_nonempty _ _ Hgroup Hgroups) as Hne.
    destruct Hmembers as [|g members gs ms Hm _]; [done|].
    destruct (role_members_split roles biz_data g members Hm) as [s ->].
    pose proof (split_nonempty "," s).
    destruct (split "," s) as [|x l] eqn:Hs; [done|].
    exists x. simpl. by left. }
  assert (split "," (join "," (sorted_set receivers)) = sorted_set receivers)
    as Hback.
  { apply split_join.
    - intros Hnil.
      assert (x0 ∈ sorted_set receivers) as Hin
        by (apply (proj2 (proj2 (sorted_set_spec receivers) x0)), Hel;
            by left).
      rewrite Hnil in Hin. by apply elem_of_nil in Hin.
    - apply Forall_forall. intros x Hx.
      apply (proj1 (proj2 (sorted_set_spec receivers) x)) in Hx.
      rewrite Forall_forall in Hfree'. by apply Hfree'. }
  exists (join "," (sorted_set receivers)). split; [|split].
  - by eapply get_notify_receivers_found.
  - rewrite Hback. apply sorted_set_spec.
  - intros x. rewrite Hback, (proj2 (sorted_set_spec _)). apply Hel.
Qed.

Lemma notified_names_split_back_witness :
  ∃ data : string,
    get_notify_receivers sample_roles sample_error sample_not_unique
      sample_client 2 (PInt 0) (PStr "Maintainers,Developer") " zoe,amy" None
      fresh
    = (Ok (PDict {[ "result" := PBool true;
                    "message" := PStr "success";
                    "data" := PStr data ]}),
       World tt [Call "search_business" [business_query (PInt 0) 2] ∅] [])
    ∧ StronglySorted str_lt (split "," data)
    ∧ ∀ x, x ∈ split "," data ↔
           x ∈ concat [["tom"; "amy"]; ["bob"; "tom"]]
           ∨ (" zoe,amy" ≠ "" ∧ x ∈ strip <$> split "," " zoe,amy").
Proof.
  eapply (notified_names_split_back sample_roles sample_error
            sample_not_unique sample_client 2 (PInt 0)
            (PStr "Maintainers,Developer") " zoe,amy" None fresh _
            _ (PBool true) (PInt 1) sample_business
            [PStr "Maintainers"; PStr "Developer"]).
  - reflexivity.
  - reflexivity.
  - reflexivity.
  - reflexivity.
  - reflexivity.
  - reflexivity.
  - reflexivity.
  - reflexivity.
  - repeat constructor.
Defined.

(** X16: with a falsy [receiver_group] the data returned is
    [more_receiver] in a normal form: split on commas it gives the
    stripped names back, and handing it in again as [more_receiver]
    returns it unchanged. *)
Theorem empty_group_data_is_stable {B : Type} (roles : gmap string string)
    (handle_api_error : string → string → pyval → pyval → string)
    (not_unique_message : Z → pyval → string)
    (client : client B) (biz_cc_id : Z)
    (supplier_account receiver_group : pyval) (more_receiver : string)
    (logger : option logger_id) (w : world B) :
  truthy receiver_group = false →
  ∃ data : string,
    get_notify_receivers roles handle_api_error not_unique_message client
      biz_cc_id supplier_account receiver_group more_receiver logger w
    = (Ok (reply true "success" (PStr data)), w)
    ∧ split "," data = strip <$> split "," more_receiver
    ∧ get_notify_receivers roles handle_api_error not_unique_message client
        biz_cc_id supplier_account receiver_group data logger w
      = (Ok (reply true "success" (PStr data)), w).
Proof.
  intros Hfalsy.
  assert (split "," (join "," (strip <$> split "," more_receiver))
          = strip <$> split "," more_receiver) as Hback.
  { apply split_join.
    - pose proof (split_nonempty "," more_receiver).
      by destruct (split "," more_receiver).
    - apply Forall_fmap.
      eapply Forall_impl; [apply (split_pieces_without_sep ",")|].
      intros x Hx. by apply strip_without_sep. }
  exists (join "," (strip <$> split "," more_receiver)).
  unfold get_notify_receivers. rewrite Hfalsy. cbn [negb].
  split; [done|]. split; [done|].
  rewrite Hback, <- list_fmap_compose.
  erewrite (list_fmap_ext (strip ∘ strip) strip); [done|].
  intros _ x _. apply strip_strip.
Qed.

Lemma empty_group_data_is_stable_witness :
  ∃ data : string,
    get_notify_receivers sample_roles sample_error sample_not_unique
      sample_client 2 (PInt 0) PNone " tom , amy,tom " None fresh
    = (Ok (reply true "success" (PStr data)), fresh)
    ∧ split "," data = strip <$> split "," " tom , amy,tom "
    ∧ get_notify_receivers sample_roles sample_error sample_not_unique
        sample_client 2 (PInt 0) PNone data None fresh
      = (Ok (reply true "success" (PStr data)), fresh).
Proof.
  apply (empty_group_data_is_stable sample_roles sample_error
           sample_not_unique sample_client 2 (PInt 0) PNone
           " tom , amy,tom " None fresh).
  reflexivity.
Defined.

Lemma get_notify_receivers_unfold {B : Type} (roles : gmap string string)
    (handle_api_error : string → string → pyval → pyval → string)
    (not_unique_message : Z → pyval → string)
    (client : client B) (biz_cc_id : Z)
    (supplier_account receiver_group : pyval) (more_receiver : string)
    (logger : option logger_id) (w : world B) :
  truthy receiver_group = true →
  get_notify_receivers roles handle_api_error not_unique_message client
    biz_cc_id supplier_account receiver_group more_receiver logger w
  = let kwargs := business_query supplier_account biz_cc_id in
    let lg := match logger with Some l => l | None => LoggerCelery end in
    match invoke (search_business client) [kwargs] ∅ w with
    | (Ok cc_result, w1) =>
        let message :=
          handle_api_error "CMDB" "cc.search_business" kwargs cc_result in
        let failed text :=
          (Ok (reply false text PNone),
           World (backend w1) (calls w1) (log w1 ++ [(lg, Message message)]))
        in
        match subscript cc_result "result" with
        | Ok flag =>
            if truthy flag then
              match business_count cc_result with
              | Ok biz_count =>
                  if py_ne_int biz_count 1
                  then failed (not_unique_message biz_cc_id biz_count)
                  else
                    match obind (first_business cc_result) (λ biz_data,
                          obind (receiver_groups receiver_group) (λ groups,
                          extend_receivers roles biz_data groups [])) with
                    | Ok receivers =>
                        (Ok (reply true "success"
                               (PStr (join ","
                                  (sorted_set
                                     (if truthy (PStr more_receiver)
                                      then receivers
                                           ++ (strip <$>
                                               split "," more_receiver)
                                      else receivers))))), w1)
                    | Raise e => (Raise e, w1)
                    | Diverge => (Diverge, w1)
                    end
              | Raise e => (Raise e, w1)
              | Diverge => (Diverge, w1)
              end
            else failed message
        | Raise e => (Raise e, w1)
        | Diverge => (Diverge, w1)
        end
    | (Raise e, w1) => (Raise e, w1)
    | (Diverge, w1) => (Diverge, w1)
    end.
Proof.
  intros Hgroup. unfold get_notify_receivers.
  rewrite Hgroup. cbn [negb]. cbv zeta. unfold bind at 1.
  destruct (invoke (search_business client) _ _ w) as [[cc_result|e|] w1];
    [|done..].
  unfold bind at 1, lift.
  destruct (subscript cc_result "result") as [flag|e|]; [|done..].
  destruct (truthy flag); cbn [negb]; [|by destruct logger].
  unfold bind at 1.
  destruct (business_count cc_result) as [biz_count|e|]; [|done..].
  destruct (py_ne_int biz_count 1); [by destruct logger|].
  unfold bind at 1.
  destruct (first_business cc_result) as [biz_data|e|]; [|done..].
  unfold bind at 1. simpl.
  destruct (receiver_groups receiver_group) as [groups|e|]; [|done..].
  unfold bind at 1. simpl.
  by destruct (extend_receivers roles biz_data groups []).
Qed.

(** X17: with a truthy [receiver_group], [get_notify_receivers] calls
    the business lookup exactly once, with the query for the supplier
    account and the business id as its only argument, whatever the
    lookup answers and whatever happens afterwards; and it writes at
    most one log line, on the logger it was given or the celery
    logger. *)
Theorem one_business_lookup {B : Type} (roles : gmap string string)
    (handle_api_error : string → string → pyval → pyval → string)
    (not_unique_message : Z → pyval → string)
    (client : client B) (biz_cc_id : Z)
    (supplier_account receiver_group : pyval) (more_receiver : string)
    (logger : option logger_id) (w : world B) :
  truthy receiver_group = true →
  calls (get_notify_receivers roles handle_api_error not_unique_message
           client biz_cc_id supplier_account receiver_group more_receiver
           logger w).2
  = calls w
    ++ [Call (name (search_business client))
          [business_query supplier_account biz_cc_id] ∅]
  ∧ (log (get_notify_receivers roles handle_api_error not_unique_message
            client biz_cc_id supplier_account receiver_group more_receiver
            logger w).2 = log w
     ∨ ∃ message,
         log (get_notify_receivers roles handle_api_error not_unique_message
                client biz_cc_id supplier_account receiver_group
                more_receiver logger w).2
         = log w
           ++ [(match logger with Some l => l | None => LoggerCelery end,
                Message message)]).
Proof.
  intros Hgroup.
  rewrite (get_notify_receivers_unfold roles handle_api_error
             not_unique_message client biz_cc_id supplier_account
             receiver_group more_receiver logger w Hgroup).
  cbv zeta.
  pose proof (invoke_calls (search_business client)
                [business_query supplier_account biz_cc_id] ∅ w)
    as [Hcalls Hlog].
  destruct (invoke (search_business client) _ _ w) as [[cc_result|e|] w1];
    simpl in Hcalls, Hlog; [|by split; [|left]..].
  destruct (subscript cc_result "result") as [flag|e|];
    [|by split; [|left]..].
  destruct (truthy flag).
  - destruct (business_count cc_result) as [biz_count|e|];
      [|by split; [|left]..].
    destruct (py_ne_int biz_count 1).
    + split; [done|]. right. eexists. simpl. by rewrite Hlog.
    + destruct (obind (first_business cc_result) _) as [receivers|e|];
        by split; [|left].
  - split; [done|]. right. eexists. simpl. by rewrite Hlog.
Qed.

Lemma one_business_lookup_witness :
  calls (get_notify_receivers sample_roles sample_error sample_not_unique
           sample_client 2 (PInt 0) (PStr "Tester") "amy" None fresh).2
  = calls fresh ++ [Call "search_business" [business_query (PInt 0) 2] ∅]
  ∧ (log (get_notify_receivers sample_roles sample_error sample_not_unique
            sample_client 2 (PInt 0) (PStr "Tester") "amy" None fresh).2
     = log fresh
     ∨ ∃ message,
         log (get_notify_receivers sample_roles sample_error
                sample_not_unique sample_client 2 (PInt 0) (PStr "Tester")
                "amy" None fresh).2
         = log fresh ++ [(LoggerCelery, Message message)]).
Proof.
  apply (one_business_lookup sample_roles sample_error sample_not_unique
           sample_client 2 (PInt 0) (PStr "Tester") "amy" None fresh).
  reflexivity.
Defined.

(** ** Exceptions and refusals on the way through *)

(** X18: nothing in [batch_request] catches what [get_data] raises (or
    what iterating over its result raises): the exception of the first
    truthy page response on which it fails is raised to the caller,
    the records of the windows before it are lost, and no log line is
    written. *)
Theorem extractor_exception_reaches_caller {B : Type} (sched : list nat)
    (func : adapter B) (params : gmap string pyval)
    (get_data get_count : pyval → outcome pyval) (limit count : Z)
    (w w1 w2 : world B) (r flag resp : pyval) (starts : list Z)
    (earlier later : list (option (outcome pyval)))
    (itemss : list (list pyval)) (e : exn) :
  call_with_page func (page 0 1) params w = (Ok r, w1) →
  subscript r "result" = Ok flag →
  truthy flag = true →
  obind (get_count r) as_int = Ok count →
  page_starts (Z.to_nat count) 0 count limit = Some starts →
  pool_join sched func (request_params limit params <$> starts) w1
  = (Ok (earlier ++ Some (Ok resp) :: later), w2) →
  Forall2 (λ future items,
             ∃ v, future = Some (Ok v) ∧ truthy v = true
                  ∧ obind (get_data v) py_iter = Ok items)
    earlier itemss →
  truthy resp = true →
  obind (get_data resp) py_iter = Raise e →
  batch_request sched func params get_data get_count limit w = (Raise e, w2)
  ∧ log w2 = log w.
Proof.
  intros Hprobe Hflag Htrue Hcount Hplan Hjoin Hall Hresp Hraise.
  destruct (call_with_page_ok _ _ _ _ _ _ Hprobe) as (_ & _ & Hlog1).
  set (tasks := request_params limit params <$> starts) in *.
  destruct (pool_run_resolved sched func tasks w1) as (Hlen & Hlog2 & _).
  rewrite (pool_join_ok _ _ _ _ _ _ Hjoin) in Hlen, Hlog2. simpl in *.
  split; [|congruence].
  unfold batch_request.
  rewrite (bind_ok _ _ _ _ _ Hprobe), (bind_lift_ok _ _ _ _ Hflag), Htrue.
  simpl. rewrite (bind_lift_ok _ _ _ _ Hcount), Hplan.
  fold tasks. rewrite (bind_ok _ _ _ _ _ Hjoin).
  rewrite length_app in Hlen. simpl in Hlen.
  rewrite <- (take_drop (length earlier) tasks).
  destruct (drop (length earlier) tasks) as [|kw later_tasks] eqn:Hdrop.
  { apply (f_equal length) in Hdrop. rewrite length_drop in Hdrop.
    simpl in Hdrop. lia. }
  rewrite zip_with_app by (rewrite length_take; lia).
  rewrite (merge_truthy_prefix func get_data _ earlier itemss);
    [|rewrite length_take; lia|done].
  cbn [zip_with]. rewrite merge_cons. by rewrite Hresp, Hraise.
Qed.

Lemma extractor_exception_reaches_caller_witness :
  batch_request [] (refusing_one_page failed_reply) ∅ default_get_data
    default_get_count 500 fresh
  = (Raise TypeError,
     World tt
       (Call "list_biz_hosts" [] <$>
          [<["page" := page 0 1]> ∅; request_params 500 ∅ 0;
           request_params 500 ∅ 500; request_params 500 ∅ 1000]) [])
  ∧ log (World tt
           (Call "list_biz_hosts" [] <$>
              [<["page" := page 0 1]> ∅; request_params 500 ∅ 0;
               request_params 500 ∅ 500; request_params 500 ∅ 1000])
           (@nil (logger_id * log_entry)))
    = log fresh.
Proof.
  apply (extractor_exception_reaches_caller []
           (refusing_one_page failed_reply) ∅ default_get_data
           default_get_count 500 1200 fresh
           (World tt [Call "list_biz_hosts" [] (<["page" := page 0 1]> ∅)] [])
           (World tt
              (Call "list_biz_hosts" [] <$>
                 [<["page" := page 0 1]> ∅; request_params 500 ∅ 0;
                  request_params 500 ∅ 500; request_params 500 ∅ 1000]) [])
           (ok_reply 1200 [page 0 1]) (PBool true) failed_reply
           [0; 500; 1000]
           [Some (Ok (ok_reply 1200 [page 0 500]))]
           [Some (Ok (ok_reply 1200 [page 1000 500]))]
           [[page 0 500]] TypeError).
  - reflexivity.
  - reflexivity.
  - reflexivity.
  - reflexivity.
  - reflexivity.
  - vm_compute. reflexivity.
  - repeat constructor. eexists. repeat split; reflexivity.
  - vm_compute. reflexivity.
  - reflexivity.
Defined.

(** X19: when the probe of a host query is refused, the query returns
    the empty list, as it does for a business without hosts; the one
    trace of the refusal is the line on the root logger, which names
    the path of the component and carries the response. *)
Theorem refused_host_query_returns_empty {B : Type}
    (get_client_by_user : string → client B) (sched : list nat)
    (username : string)
    (bk_biz_id supplier_account host_fields ip_list : pyval)
    (w : world B) (topo : bool) :
  let kwargs := host_kwargs bk_biz_id supplier_account host_fields ip_list in
  let client := get_client_by_user username in
  let func := if topo then list_biz_hosts_topo client
              else list_biz_hosts client in
  ∀ (w1 : world B) (r flag : pyval),
    invoke func [] (<["page" := page 0 1]> kwargs) w = (Ok r, w1) →
    subscript r "result" = Ok flag →
    truthy flag = false →
    (if topo
     then get_business_host_topo get_client_by_user sched username bk_biz_id
            supplier_account host_fields ip_list w
     else get_business_host get_client_by_user sched username bk_biz_id
            supplier_account host_fields ip_list w)
    = (Ok [],
       World (backend w1) (calls w1)
         (log w1 ++ [(LoggerRoot, CountRequestError (path func) r)])).
Proof.
  intros kwargs client func w1 r flag Hprobe Hflag Hfalse.
  assert (batch_request sched func kwargs default_get_data default_get_count
            500 w
          = (Ok [],
             World (backend w1) (calls w1)
               (log w1 ++ [(LoggerRoot, CountRequestError (path func) r)])))
    as Hbatch.
  { rewrite batch_request_unfold. unfold kwargs.
    rewrite host_kwargs_no_page. fold kwargs.
    by rewrite Hprobe, Hflag, Hfalse. }
  destruct topo.
  - unfold get_business_host_topo. fold kwargs client.
    by rewrite (bind_ok _ _ _ _ _ Hbatch).
  - exact Hbatch.
Qed.

Lemma refused_host_query_returns_empty_witness :
  get_business_host_topo (λ _, down_client) [] "admin" (PInt 2) (PInt 0)
    PNone PNone fresh
  = (Ok [],
     World tt
       [Call "list_biz_hosts" []
          (<["page" := page 0 1]> (host_kwargs (PInt 2) (PInt 0) PNone PNone))]
       [(LoggerRoot,
         CountRequestError "/v2/cc/list_biz_hosts/" failed_reply)]).
Proof.
  refine (eq_trans
    (refused_host_query_returns_empty (λ _, down_client) [] "admin" (PInt 2)
       (PInt 0) PNone PNone fresh true
       (World tt
          [Call "list_biz_hosts" []
             (<["page" := page 0 1]>
                (host_kwargs (PInt 2) (PInt 0) PNone PNone))] [])
       failed_reply (PBool false) _ _ _) _).
  - reflexivity.
  - reflexivity.
  - reflexivity.
  - reflexivity.
Defined.

(** ** What batch_request swallows and what it lets through *)

Section FailurePolicy.
Context {B : Type}.
Implicit Types w : world B.

(** Up to the first response that is not a truthy one with items,
    [batch_request] is one round of the merge loop on that response. *)
Lemma batch_request_at_page (sched : list nat) (func : adapter B)
    (params : gmap string pyval)
    (get_data get_count : pyval → outcome pyval) (limit count start : Z)
    w w1 w2 (r flag resp : pyval) (starts : list Z)
    (earlier later : list (option (outcome pyval)))
    (itemss : list (list pyval)) :
  call_with_page func (page 0 1) params w = (Ok r, w1) →
  subscript r "result" = Ok flag →
  truthy flag = true →
  obind (get_count r) as_int = Ok count →
  page_starts (Z.to_nat count) 0 count limit = Some starts →
  pool_join sched func (request_params limit params <$> starts) w1
  = (Ok (earlier ++ Some (Ok resp) :: later), w2) →
  Forall2 (λ future items,
             ∃ v, future = Some (Ok v) ∧ truthy v = true
                  ∧ obind (get_data v) py_iter = Ok items)
    earlier itemss →
  starts !! length earlier = Some start →
  batch_request sched func params get_data get_count limit w
  = merge func get_data
      ((request_params limit params start, Some (Ok resp))
       :: zip (drop (S (length earlier))
                 (request_params limit params <$> starts)) later)
      (concat itemss) w2
  ∧ log w2 = log w.
Proof.
  intros Hprobe Hflag Htrue Hcount Hplan Hjoin Hall Hstart.
  destruct (call_with_page_ok _ _ _ _ _ _ Hprobe) as (_ & _ & Hlog1).
  set (tasks := request_params limit params <$> starts) in *.
  destruct (pool_run_resolved sched func tasks w1) as (_ & Hlog2 & _).
  rewrite (pool_join_ok _ _ _ _ _ _ Hjoin) in Hlog2. simpl in Hlog2.
  split; [|congruence].
  unfold batch_request.
  rewrite (bind_ok _ _ _ _ _ Hprobe), (bind_lift_ok _ _ _ _ Hflag), Htrue.
  simpl. rewrite (bind_lift_ok _ _ _ _ Hcount), Hplan.
  fold tasks. rewrite (bind_ok _ _ _ _ _ Hjoin).
  assert (tasks !! length earlier = Some (request_params limit params start))
    as Hkw by (unfold tasks; by rewrite list_lookup_fmap, Hstart).
  rewrite <- (take_drop_middle tasks _ _ Hkw) at 1.
  assert (length (take (length earlier) tasks) = length earlier) as Hlen.
  { apply length_take_le. apply lookup_lt_Some in Hkw. lia. }
  rewrite zip_with_app by done.
  by rewrite (merge_truthy_prefix func get_data _ earlier itemss).
Qed.
End FailurePolicy.

(** C5, as the code has it. [batch_request] has no handler for
    exceptions; what it turns into the empty list and a log line are
    the two failures it tests for. For an adapter with the attributes
    [path] and [__name__]:
    - when nothing raises (the probe returns a response with a success
      flag, a successful probe yields an integer count, [limit] is
      positive, no call of the adapter raises and [get_data] yields
      items for every truthy response) it returns a list, and has
      written a log line only if that list is empty;
    - a probe whose success flag is false gives the empty list and one
      line with the adapter's path and the response;
    - the first page response that is itself falsy gives the empty list
      and one line with the adapter's name, the window's request
      parameters and the response;
    - an exception raised by the adapter at the probe, by reading the
      success flag, by the count extractor, or by [get_data] on a
      truthy page response is raised to the caller. *)
Theorem batch_request_failure_policy {B : Type} (sched : list nat)
    (func : adapter B) (params : gmap string pyval)
    (get_data get_count : pyval → outcome pyval) (limit : Z) (w : world B) :
  (∀ w1 r flag,
     call_with_page func (page 0 1) params w = (Ok r, w1) →
     subscript r "result" = Ok flag →
     (truthy flag = true → ∃ count, obind (get_count r) as_int = Ok count) →
     0 < limit →
     (∀ b k, ∃ v, (run func b [] k).1 = Ok v
                  ∧ (truthy v = true →
                     ∃ items, obind (get_data v) py_iter = Ok items)) →
     ∃ data w',
       batch_request sched func params get_data get_count limit w
       = (Ok data, w')
       ∧ (log w' = log w
          ∨ data = [] ∧ ∃ entry, log w' = log w ++ [(LoggerRoot, entry)]))
  ∧ (∀ w1 r flag,
       call_with_page func (page 0 1) params w = (Ok r, w1) →
       subscript r "result" = Ok flag →
       truthy flag = false →
       batch_request sched func params get_data get_count limit w
       = (Ok [],
          World (backend w1) (calls w1)
            (log w ++ [(LoggerRoot, CountRequestError (path func) r)])))
  ∧ (∀ w1 w2 r flag count starts earlier later itemss resp start,
       call_with_page func (page 0 1) params w = (Ok r, w1) →
       subscript r "result" = Ok flag →
       truthy flag = true →
       obind (get_count r) as_int = Ok count →
       page_starts (Z.to_nat count) 0 count limit = Some starts →
       pool_join sched func (request_params limit params <$> starts) w1
       = (Ok (earlier ++ Some (Ok resp) :: later), w2) →
       Forall2 (λ future items,
                  ∃ v, future = Some (Ok v) ∧ truthy v = true
                       ∧ obind (get_data v) py_iter = Ok items)
         earlier itemss →
       starts !! length earlier = Some start →
       truthy resp = false →
       batch_request sched func params get_data get_count limit w
       = (Ok [],
          World (backend w2) (calls w2)
            (log w
             ++ [(LoggerRoot,
                  RequestError (name func)
                    (request_params limit params start) resp)])))
  ∧ (∀ w1 e,
       call_with_page func (page 0 1) params w = (Raise e, w1) →
       batch_request sched func params get_data get_count limit w
       = (Raise e, w1))
  ∧ (∀ w1 r e,
       call_with_page func (page 0 1) params w = (Ok r, w1) →
       subscript r "result" = Raise e →
       batch_request sched func params get_data get_count limit w
       = (Raise e, w1))
  ∧ (∀ w1 r flag e,
       call_with_page func (page 0 1) params w = (Ok r, w1) →
       subscript r "result" = Ok flag →
       truthy flag = true →
       obind (get_count r) as_int = Raise e →
       batch_request sched func params get_data get_count limit w
       = (Raise e, w1))
  ∧ (∀ w1 w2 r flag count starts earlier later itemss resp start e,
       call_with_page func (page 0 1) params w = (Ok r, w1) →
       subscript r "result" = Ok flag →
       truthy flag = true →
       obind (get_count r) as_int = Ok count →
       page_starts (Z.to_nat count) 0 count limit = Some starts →
       pool_join sched func (request_params limit params <$> starts) w1
       = (Ok (earlier ++ Some (Ok resp) :: later), w2) →
       Forall2 (λ future items,
                  ∃ v, future = Some (Ok v) ∧ truthy v = true
                       ∧ obind (get_data v) py_iter = Ok items)
         earlier itemss →
       starts !! length earlier = Some start →
       truthy resp = true →
       obind (get_data resp) py_iter = Raise e →
       batch_request sched func params get_data get_count limit w
       = (Raise e, w2)
       ∧ log w2 = log w).
Proof.
  repeat apply conj.
  - intros w1 r flag Hprobe Hflag Hcount Hlimit Hrun.
    destruct (call_with_page_ok _ _ _ _ _ _ Hprobe) as (_ & _ & Hlog1).
    unfold batch_request.
    rewrite (bind_ok _ _ _ _ _ Hprobe), (bind_lift_ok _ _ _ _ Hflag).
    destruct (truthy flag) eqn:Htrue; simpl.
    + destruct (Hcount eq_refl) as [count Hc].
      rewrite (bind_lift_ok _ _ _ _ Hc).
      destruct (page_starts (Z.to_nat count) 0 count limit)
        as [starts|] eqn:Hplan.
      * set (tasks := request_params limit params <$> starts).
        assert (pool_join sched func tasks w1
                = (Ok (pool_run sched func tasks w1).1,
                   (pool_run sched func tasks w1).2)) as Hjoin.
        { apply pool_join_returns. intros b kw Hd.
          destruct (Hrun b kw) as (v & Hv & _). congruence. }
        destruct (pool_run_resolved sched func tasks w1) as (_ & Hlog2 & _).
        rewrite (bind_ok _ _ _ _ _ Hjoin).
        destruct (merge_returns func get_data
                    (zip tasks (pool_run sched func tasks w1).1) []
                    (pool_run sched func tasks w1).2) as (data & w' & Hm).
        { apply Forall_forall. intros [kw future] Hin.
          apply list_elem_of_lookup in Hin as [i Hi].
          apply lookup_zip_with_Some in Hi
            as (kw' & future' & [= <- <-] & Hkw & Hf).
          destruct (pool_run_invariant sched func
                      (λ _ o, ∃ v, o = Ok v
                         ∧ (truthy v = true →
                            ∃ items, obind (get_data v) py_iter = Ok items))
                      tasks w1) with (i := i)
            as (o & Ho & v & -> & Hv).
          - intros b j kw0 _. destruct (Hrun b kw0) as (v & Hv & Hitems).
            eauto.
          - by eapply lookup_lt_Some.
          - exists v. simpl. split; [congruence|done]. }
        exists data, w'. split; [exact Hm|].
        destruct (merge_world func get_data
                    (zip tasks (pool_run sched func tasks w1).1) []
                    (pool_run sched func tasks w1).2)
          as (_ & _ & Hl).
        rewrite Hm in Hl. simpl in Hl.
        destruct Hl as [Hl|(Ho & kw & resp & _ & _ & Hl)].
        -- left. by rewrite Hl, Hlog2.
        -- right. split; [congruence|]. eexists. by rewrite Hl, Hlog2, Hlog1.
      * destruct (Z_lt_le_dec 0 count) as [Hpos|Hnp].
        -- rewrite page_starts_from in Hplan by lia. discriminate.
        -- destruct (Z.to_nat count) eqn:Hz; [|lia]. simpl in Hplan.
           destruct (Z.ltb_spec 0 count); [lia|discriminate].
    + eexists _, _. split; [reflexivity|]. right. split; [done|].
      eexists. simpl. by rewrite Hlog1.
  - intros w1 r flag Hprobe Hflag Hfalse.
    destruct (call_with_page_ok _ _ _ _ _ _ Hprobe) as (_ & _ & Hlog1).
    unfold batch_request.
    rewrite (bind_ok _ _ _ _ _ Hprobe), (bind_lift_ok _ _ _ _ Hflag), Hfalse.
    simpl. unfold bind, log_error, ret. simpl. by rewrite Hlog1.
  - intros w1 w2 r flag count starts earlier later itemss resp start
      Hprobe Hflag Htrue Hcount Hplan Hjoin Hall Hstart Hfalsy.
    destruct (batch_request_at_page sched func params get_data get_count
                limit count start w w1 w2 r flag resp starts earlier later
                itemss Hprobe Hflag Htrue Hcount Hplan Hjoin Hall Hstart)
      as [-> Hlog].
    rewrite merge_cons, Hfalsy. by rewrite Hlog.
  - intros w1 e Hprobe. unfold batch_request.
    by rewrite (bind_raise _ _ _ _ _ Hprobe).
  - intros w1 r e Hprobe Hflag. unfold batch_request.
    rewrite (bind_ok _ _ _ _ _ Hprobe). unfold bind, lift. by rewrite Hflag.
  - intros w1 r flag e Hprobe Hflag Htrue Hcount. unfold batch_request.
    rewrite (bind_ok _ _ _ _ _ Hprobe), (bind_lift_ok _ _ _ _ Hflag), Htrue.
    simpl. unfold bind, lift. by rewrite Hcount.
  - intros w1 w2 r flag count starts earlier later itemss resp start e
      Hprobe Hflag Htrue Hcount Hplan Hjoin Hall Hstart Hresp Hraise.
    destruct (batch_request_at_page sched func params get_data get_count
                limit count start w w1 w2 r flag resp starts earlier later
                itemss Hprobe Hflag Htrue Hcount Hplan Hjoin Hall Hstart)
      as [-> Hlog].
    split; [|done]. rewrite merge_cons. by rewrite Hresp, Hraise.
Qed.

Lemma batch_request_failure_policy_witness :
  (∃ data w',
     batch_request [] serving ∅ default_get_data default_get_count 500 fresh
     = (Ok data, w')
     ∧ (log w' = log fresh
        ∨ data = [] ∧ ∃ entry, log w' = log fresh ++ [(LoggerRoot, entry)]))
  ∧ batch_request [] refusing ∅ default_get_data default_get_count 500 fresh
    = (Ok [],
       World tt [Call "list_biz_hosts" [] (<["page" := page 0 1]> ∅)]
         [(LoggerRoot,
           CountRequestError "/v2/cc/list_biz_hosts/" failed_reply)])
  ∧ batch_request [] dropping_one_page ∅ default_get_data default_get_count
      500 fresh
    = (Ok [],
       World tt
         (Call "list_biz_hosts" [] <$>
            [<["page" := page 0 1]> ∅; request_params 500 ∅ 0;
             request_params 500 ∅ 500; request_params 500 ∅ 1000])
         [(LoggerRoot,
           RequestError "list_biz_hosts" (request_params 500 ∅ 500) PNone)])
  ∧ batch_request [] unreachable ∅ default_get_data default_get_count 500
      fresh
    = (Raise (OtherError "ConnectionError"),
       World tt [Call "list_biz_hosts" [] (<["page" := page 0 1]> ∅)] [])
  ∧ batch_request [] (refusing_one_page failed_reply) ∅ default_get_data
      default_get_count 500 fresh
    = (Raise TypeError,
       World tt
         (Call "list_biz_hosts" [] <$>
            [<["page" := page 0 1]> ∅; request_params 500 ∅ 0;
             request_params 500 ∅ 500; request_params 500 ∅ 1000]) []).
Proof.
  pose (probed :=
          World tt [Call "list_biz_hosts" [] (<["page" := page 0 1]> ∅)] []
          : world unit).
  pose (fetched :=
          World tt
            (Call "list_biz_hosts" [] <$>
               [<["page" := page 0 1]> ∅; request_params 500 ∅ 0;
                request_params 500 ∅ 500; request_params 500 ∅ 1000]) []
          : world unit).
  split; [|split; [|split; [|split]]].
  - destruct (batch_request_failure_policy [] serving ∅ default_get_data
                default_get_count 500 fresh) as (Hreturns & _).
    apply (Hreturns probed (ok_reply 1200 [page 0 1]) (PBool true)).
    + reflexivity.
    + reflexivity.
    + intros _. exists 1200. reflexivity.
    + lia.
    + intros b k. eexists. split; [reflexivity|].
      intros _. eexists. reflexivity.
  - destruct (batch_request_failure_policy [] refusing ∅ default_get_data
                default_get_count 500 fresh) as (_ & Hrefused & _).
    refine (eq_trans (Hrefused probed failed_reply (PBool false) _ _ _) _);
      reflexivity.
  - destruct (batch_request_failure_policy [] dropping_one_page ∅
                default_get_data default_get_count 500 fresh)
      as (_ & _ & Hfalsy & _).
    refine (eq_trans
      (Hfalsy probed fetched (ok_reply 1200 [page 0 1]) (PBool true) 1200
         [0; 500; 1000] [Some (Ok (ok_reply 1200 [page 0 500]))]
         [Some (Ok (ok_reply 1200 [page 1000 500]))] [[page 0 500]] PNone 500
         _ _ _ _ _ _ _ _ _) _);
      first [ reflexivity
            | repeat constructor; eexists; repeat split; reflexivity
            | vm_compute; reflexivity ].
  - destruct (batch_request_failure_policy [] unreachable ∅ default_get_data
                default_get_count 500 fresh) as (_ & _ & _ & Hprobe & _).
    apply (Hprobe probed). reflexivity.
  - destruct (batch_request_failure_policy [] (refusing_one_page failed_reply)
                ∅ default_get_data default_get_count 500 fresh)
      as (_ & _ & _ & _ & _ & _ & Hextract).
    refine (proj1
      (Hextract probed fetched (ok_reply 1200 [page 0 1]) (PBool true) 1200
         [0; 500; 1000] [Some (Ok (ok_reply 1200 [page 0 500]))]
         [Some (Ok (ok_reply 1200 [page 1000 500]))] [[page 0 500]]
         failed_reply 500 TypeError _ _ _ _ _ _ _ _ _ _));
      first [ reflexivity
            | repeat constructor; eexists; repeat split; reflexivity
            | vm_compute; reflexivity ].
Defined.

(** ** The recipients of a successful lookup *)

(** C7, as stated, fails: a non-empty [receiver_group] and a lookup
    that finds exactly one business do not make the call return the
    joined names. The trailing comma of ["Maintainers,"] leaves an empty
    group, which the role table does not hold: the call raises
    [KeyError] and returns no reply. *)
Lemma group_outside_role_table_no_reply :
  truthy (PStr "Maintainers,") = true
  ∧ invoke (search_business sample_client) [business_query (PInt 0) 2] ∅
      fresh
    = (Ok (ok_reply 1 [sample_business]),
       World tt [Call "search_business" [business_query (PInt 0) 2] ∅] [])
  ∧ subscript (ok_reply 1 [sample_business]) "result" = Ok (PBool true)
  ∧ business_count (ok_reply 1 [sample_business]) = Ok (PInt 1)
  ∧ get_notify_receivers sample_roles sample_error sample_not_unique
      sample_client 2 (PInt 0) (PStr "Maintainers,") "amy" None fresh
    = (Raise KeyError,
       World tt [Call "search_business" [business_query (PInt 0) 2] ∅] [])
  ∧ ¬ ∃ reply w',
        get_notify_receivers sample_roles sample_error sample_not_unique
          sample_client 2 (PInt 0) (PStr "Maintainers,") "amy" None fresh
        = (Ok reply, w').
Proof.
  repeat split; try reflexivity.
  intros (reply & w' & H). vm_compute in H. discriminate.
Qed.

(** C7, as the code has it: with a non-empty [receiver_group] and the
    business lookup succeeding with exactly one business,
    - when every requested group is a key of the role table whose
      field of the business is a string, [get_notify_receivers]
      returns a success whose data is the comma-join of
      [sorted(set(receivers))], where [receivers] are the
      comma-separated members of the requested groups followed, for a
      non-empty [more_receiver], by its stripped names; these names are
      in strictly ascending order (sorted, none twice), they are
      exactly the members of the groups and the names of
      [more_receiver], and splitting the data on commas gives them
      back;
    - when a requested group is not a key of the role table, the
      first such group makes the call raise [KeyError]. *)
Theorem notify_receivers_sorted_union {B : Type}
    (roles : gmap string string)
    (handle_api_error : string → string → pyval → pyval → string)
    (not_unique_message : Z → pyval → string)
    (client : client B) (biz_cc_id : Z)
    (supplier_account receiver_group : pyval) (more_receiver : string)
    (logger : option logger_id) (w w1 : world B)
    (cc_result flag biz_count biz_data : pyval) (groups : list pyval) :
  truthy receiver_group = true →
  invoke (search_business client)
    [business_query supplier_account biz_cc_id] ∅ w = (Ok cc_result, w1) →
  subscript cc_result "result" = Ok flag →
  truthy flag = true →
  business_count cc_result = Ok biz_count →
  py_ne_int biz_count 1 = false →
  first_business cc_result = Ok biz_data →
  receiver_groups receiver_group = Ok groups →
  (∀ memberss : list (list string),
     Forall2 (λ group members,
                ∃ g role s, group = PStr g ∧ roles !! g = Some role
                            ∧ subscript biz_data role = Ok (PStr s)
                            ∧ members = split "," s)
       groups memberss →
     ∃ names : list string,
       get_notify_receivers roles handle_api_error not_unique_message client
         biz_cc_id supplier_account receiver_group more_receiver logger w
       = (Ok (PDict {[ "result" := PBool true;
                       "message" := PStr "success";
                       "data" := PStr (join "," names) ]}), w1)
       ∧ names
         = sorted_set
             (concat memberss
              ++ (if String.eqb more_receiver ""
                  then []
                  else strip <$> split "," more_receiver))
       ∧ split "," (join "," names) = names
       ∧ StronglySorted str_lt names
       ∧ ∀ x, x ∈ names ↔
              x ∈ concat memberss
              ∨ (more_receiver ≠ ""
                 ∧ x ∈ strip <$> split "," more_receiver))
  ∧ (∀ (known rest : list pyval) (group : string),
       groups = known ++ PStr group :: rest →
       Forall (λ g, ∃ members, role_members roles biz_data g = Ok members)
         known →
       roles !! group = None →
       get_notify_receivers roles handle_api_error not_unique_message client
         biz_cc_id supplier_account receiver_group more_receiver logger w
       = (Raise KeyError, w1)).
Proof.
  intros Hgroup Hcall Hflag Htrue Hcount Hone Hbiz Hgroups. split.
  - intros memberss Hsplit.
    assert (Forall2 (λ group members,
                       role_members roles biz_data group = Ok members)
              groups memberss) as Hmembers.
    { eapply Forall2_impl; [exact Hsplit|].
      intros group members (g & role & s & -> & Hrole & Hfield & ->).
      unfold role_members. rewrite Hrole. simpl. by rewrite Hfield. }
    set (receivers :=
           concat memberss
           ++ (if String.eqb more_receiver ""
               then [] else strip <$> split "," more_receiver)).
    assert ((if truthy (PStr more_receiver)
             then concat memberss ++ (strip <$> split "," more_receiver)
             else concat memberss) = receivers) as Hrecv.
    { unfold receivers. simpl.
      destruct (String.eqb more_receiver ""); simpl; [|done].
      by rewrite app_nil_r. }
    assert (∀ x, x ∈ receivers ↔
                 x ∈ concat memberss
                 ∨ (more_receiver ≠ ""
                    ∧ x ∈ strip <$> split "," more_receiver)) as Hel.
    { intros x. unfold receivers. rewrite elem_of_app.
      destruct (String.eqb_spec more_receiver "") as [->|Hne].
      - split; [intros [?|?%elem_of_nil]; [by left|done]|].
        intros [?|[? _]]; [by left|done].
      - split; (intros [?|?]; [by left|right]); [done|by destruct H]. }
    assert (Forall (λ x, has_char "," x = false) receivers) as Hfree.
    { unfold receivers. apply Forall_app. split.
      - apply Forall_concat. eapply Forall2_Forall_r; [exact Hsplit|].
        apply Forall_forall.
        intros group _ members (g & role & s & _ & _ & _ & ->).
        apply split_pieces_without_sep.
      - destruct (String.eqb more_receiver ""); [constructor|].
        apply Forall_fmap.
        eapply Forall_impl; [apply (split_pieces_without_sep ",")|].
        intros x Hx. by apply strip_without_sep. }
    assert (∃ x, x ∈ receivers) as [x0 Hx0].
    { pose proof (receiver_groups_nonempty _ _ Hgroup Hgroups) as Hne.
      destruct Hsplit as [|group members gs ms (g & role & s & _ & _ & _ & ->)
                            _]; [done|].
      pose proof (split_nonempty "," s).
      destruct (split "," s) as [|x l] eqn:Hs; [done|].
      exists x. apply Hel. left. simpl. by left. }
    exists (sorted_set receivers). split; [|split; [done|split; [|split]]].
    + rewrite <- Hrecv. by eapply get_notify_receivers_found.
    + apply split_join.
      * intros Hnil.
        apply (proj2 (proj2 (sorted_set_spec receivers) x0)) in Hx0.
        rewrite Hnil in Hx0. by apply elem_of_nil in Hx0.
      * apply Forall_forall. intros x Hx.
        apply (proj1 (proj2 (sorted_set_spec receivers) x)) in Hx.
        rewrite Forall_forall in Hfree. by apply Hfree.
    + apply sorted_set_spec.
    + intros x. rewrite (proj2 (sorted_set_spec _)). apply Hel.
  - intros known rest group -> Hknown Hunknown.
    unfold get_notify_receivers. rewrite Hgroup. cbn [negb]. cbv zeta.
    rewrite (bind_ok _ _ _ _ _ Hcall), (bind_lift_ok _ _ _ _ Hflag), Htrue.
    cbn [negb]. rewrite (bind_lift_ok _ _ _ _ Hcount), Hone.
    rewrite (bind_lift_ok _ _ _ _ Hbiz), (bind_lift_ok _ _ _ _ Hgroups).
    unfold bind, lift.
    rewrite (extend_receivers_first_failure roles biz_data known rest
               (PStr group) KeyError); [done|done|].
    unfold role_members. by rewrite Hunknown.
Qed.

Lemma notify_receivers_sorted_union_witness :
  get_notify_receivers sample_roles sample_error sample_not_unique
    sample_client 2 (PInt 0) (PStr "Maintainers,Developer") " zoe,amy" None
    fresh
  = (Ok (PDict {[ "result" := PBool true;
                  "message" := PStr "success";
                  "data" := PStr "amy,bob,tom,zoe" ]}),
     World tt [Call "search_business" [business_query (PInt 0) 2] ∅] [])
  ∧ split "," "amy,bob,tom,zoe" = ["amy"; "bob"; "tom"; "zoe"]
  ∧ get_notify_receivers sample_roles sample_error sample_not_unique
      sample_client 2 (PInt 0) (PStr "Maintainers,Tester") " zoe,amy" None
      fresh
    = (Raise KeyError,
       World tt [Call "search_business" [business_query (PInt 0) 2] ∅] []).
Proof.
  pose (looked_up :=
          World tt [Call "search_business" [business_query (PInt 0) 2] ∅] []
          : world unit).
  destruct (notify_receivers_sorted_union sample_roles sample_error
              sample_not_unique sample_client 2 (PInt 0)
              (PStr "Maintainers,Developer") " zoe,amy" None fresh looked_up
              (ok_reply 1 [sample_business]) (PBool true) (PInt 1)
              sample_business [PStr "Maintainers"; PStr "Developer"]
              eq_refl eq_refl eq_refl eq_refl eq_refl eq_refl eq_refl eq_refl)
    as [Hfound _].
  destruct (Hfound [["tom"; "amy"]; ["bob"; "tom"]])
    as (names & Hreply & Hnames & Hback & _).
  { constructor; [by exists "Maintainers", "bk_biz_maintainer", "tom,amy"|].
    constructor; [by exists "Developer", "bk_biz_developer", "bob,tom"|].
    constructor. }
  assert (names = ["amy"; "bob"; "tom"; "zoe"]) as Hlist.
  { rewrite Hnames. vm_compute. reflexivity. }
  rewrite Hlist in Hreply, Hback.
  split; [exact Hreply|]. split; [exact Hback|].
  destruct (notify_receivers_sorted_union sample_roles sample_error
              sample_not_unique sample_client 2 (PInt 0)
              (PStr "Maintainers,Tester") " zoe,amy" None fresh looked_up
              (ok_reply 1 [sample_business]) (PBool true) (PInt 1)
              sample_business [PStr "Maintainers"; PStr "Tester"]
              eq_refl eq_refl eq_refl eq_refl eq_refl eq_refl eq_refl eq_refl)
    as [_ Hunknown].
  apply (Hunknown [PStr "Maintainers"] [] "Tester" eq_refl); [|reflexivity].
  repeat constructor. eexists. reflexivity.
Defined.
